(** * drevalpy: the dataset wrappers of [suite/data_wrapper.py]

    A shallow embedding of [DrugResponseDataset] and [FeatureDataset]:
    Python exceptions are an inductive type carried by a [result], a method
    that assigns to [self] returns the object it leaves behind, a [dict] is
    an insertion-ordered association list, and numpy is an interface
    ([Numpy]) whose random generator is an explicit state.  The loops that
    write into the inner dictionaries of a [FeatureDataset] are also given
    over a store of objects, in which two identifiers may hold one and the
    same inner dictionary. *)

From Stdlib Require Import ZArith QArith Qround.
From stdpp Require Import base list strings.

(** ** The fragment of the Python runtime the wrappers rely on *)

Module Py.

(** The built-in exceptions the two classes can raise.  [KeyError] carries
    the key that was looked up, [UnboundLocalError] the local name read. *)
Inductive exn : Type :=
  | NotImplementedError (msg : string)
  | ValueError (msg : string)
  | KeyError (key : string)
  | IndexError (msg : string)
  | UnboundLocalError (name : string).

Inductive result (A : Type) : Type :=
  | Ok (a : A)
  | Raise (e : exn).
Arguments Ok {A} a.
Arguments Raise {A} e.

Definition bind {A B : Type} (m : result A) (k : A -> result B) : result B :=
  match m with
  | Ok a => k a
  | Raise e => Raise e
  end.

(** [[f(x) for x in xs]] where [f] may raise: left to right, the first
    exception ends the comprehension. *)
Fixpoint comprehension {A B : Type} (f : A -> result B) (xs : list A)
  : result (list B) :=
  match xs with
  | [] => Ok []
  | x :: xs' =>
      bind (f x) (fun y => bind (comprehension f xs') (fun ys => Ok (y :: ys)))
  end.

(** A [dict] with [str] keys keeps its items in insertion order. *)
Definition dict (V : Type) : Type := list (string * V).

Definition keys {V : Type} (d : dict V) : list string := map fst d.

(** [d.get(k)] *)
Fixpoint get {V : Type} (d : dict V) (k : string) : option V :=
  match d with
  | [] => None
  | (k', v) :: d' => if String.eqb k' k then Some v else get d' k
  end.

(** [d[k]] *)
Definition getitem {V : Type} (d : dict V) (k : string) : result V :=
  match get d k with
  | Some v => Ok v
  | None => Raise (KeyError k)
  end.

(** [d[k] = v]: an existing key keeps its place, a new one goes last. *)
Fixpoint setitem {V : Type} (d : dict V) (k : string) (v : V) : dict V :=
  match d with
  | [] => [(k, v)]
  | (k', v') :: d' =>
      if String.eqb k' k then (k', v) :: d' else (k', v') :: setitem d' k v
  end.

(** [xs[0]] on a list. *)
Definition item0 {A : Type} (xs : list A) : result A :=
  match xs with
  | [] => Raise (IndexError "list index out of range")
  | x :: _ => Ok x
  end.

(** [s in t] for two [str]: [s] occurs in [t] as a substring. *)
Definition str_contains (t s : string) : bool :=
  match String.index 0 s t with
  | Some _ => true
  | None => false
  end.

(** The built-in [round] on a real: to the nearest integer, a tie to the
    even one. *)
Definition round (q : Q) : Z :=
  let f := Qfloor q in
  match Qcompare (q - inject_Z f) (1 # 2) with
  | Lt => f
  | Gt => (f + 1)%Z
  | Eq => if Z.even f then f else (f + 1)%Z
  end.

End Py.

Import Py.

(** ** numpy, as far as the wrappers use it

    A one-dimensional [ndarray] is the list of its components; its [shape]
    is its length.  [rng] is the state of the process-wide generator behind
    [np.random]. *)
Class Numpy (scalar rng : Type) : Type := {
  np_zero : scalar;
  np_mean : list scalar -> scalar;
  np_std : list scalar -> scalar;
  np_random_normal : scalar -> scalar -> nat -> rng -> list scalar * rng;
  np_random_permutation : list string -> rng -> list string * rng
}.

(** [np.zeros(shape)] *)
Definition np_zeros {scalar rng : Type} `{Numpy scalar rng} (shape : nat)
  : list scalar :=
  replicate shape np_zero.

(** [np.stack(rows)]: refuses an empty sequence and rows of unequal shape. *)
Definition np_stack {scalar : Type} (rows : list (list scalar))
  : result (list (list scalar)) :=
  match rows with
  | [] => Raise (ValueError "need at least one array to stack")
  | r :: rest =>
      if forallb (fun r' => Nat.eqb (length r') (length r)) rest
      then Ok rows
      else Raise (ValueError "all input arrays must have the same shape")
  end.

(** ** Fold descriptors *)

(** A fold descriptor: three sets of record indices. *)
Record Fold : Type := {
  train : list nat;
  validation : list nat;
  test : list nat
}.

(** ** [DrugResponseDataset] *)

Record DrugResponseDataset {scalar : Type} : Type := {
  target_type : string;
  response : list scalar;
  cell_line_ids : list string;
  drug_ids : list string;
  predictions : option (list scalar);
  (** set by [split_dataset]; the attribute does not exist before *)
  cv_splits : option (list Fold)
}.
Arguments DrugResponseDataset : clear implicits.

(** [DrugResponseDataset.__init__] (lines 33-60): four assignments. *)
Definition DrugResponseDataset_init {scalar : Type} (target_type : string)
  (response : list scalar) (cell_line_ids drug_ids : list string)
  : result (DrugResponseDataset scalar) :=
  Ok {| target_type := target_type;
        response := response;
        cell_line_ids := cell_line_ids;
        drug_ids := drug_ids;
        predictions := None;
        cv_splits := None |}.

(** ** Leave-pair-out splitting and [split_dataset] *)

(** A shuffle seeded by [random_state], and what makes it one. *)
Definition seeded_shuffle : Type := Z -> list nat -> list nat.

Definition permutes (shuffle : seeded_shuffle) : Prop :=
  forall (seed : Z) (l : list nat), shuffle seed l ≡ₚ l.

Section LeavePairOut.

Variable shuffle : seeded_shuffle.

(** Modelled from the spec: the sizes of the [k] buckets over [n] records
    (the splitter is not among the sources); they differ by at most one. *)
Definition bucket_sizes (n k : nat) : list nat :=
  map (fun i => n / k + (if i <? n mod k then 1 else 0)) (seq 0 k).

(** Modelled from the spec: the splitter's shuffle-then-chunk step (the
    splitter is not among the sources): shuffle the record indices with the
    seed, then cut them into buckets. *)
Definition lpo_buckets (random_state : Z) (n k : nat) : list (list nat) :=
  reshape (bucket_sizes n k) (shuffle random_state (seq 0 n)).

(** Modelled from the spec: the training pool of fold [i] (the splitter is
    not among the sources): every bucket but the [i]-th. *)
Definition training_pool (buckets : list (list nat)) (i : nat) : list nat :=
  mjoin (delete i buckets).

(** Modelled from the spec: the size of the validation set (the splitter
    is not among the sources): [round (validation_ratio * |pool|)]. *)
Definition validation_size (validation_ratio : Q) (pool_size : nat) : nat :=
  Z.to_nat (round (validation_ratio * inject_Z (Z.of_nat pool_size))).

(** Modelled from the spec: the validation subsample (the splitter is not
    among the sources): a reproducible subsample of the pool, the head of its
    seeded shuffle; the rest stays for training. *)
Definition carve_validation (random_state : Z) (validation_ratio : Q)
  (pool : list nat) : list nat * list nat :=
  let shuffled := shuffle random_state pool in
  let m := validation_size validation_ratio (length pool) in
  (drop m shuffled, take m shuffled).

(** Modelled from the spec: the descriptor of fold [i] (the splitter is not
    among the sources). *)
Definition lpo_fold (split_validation : bool) (validation_ratio : Q)
  (random_state : Z) (buckets : list (list nat)) (i : nat) (bucket : list nat)
  : Fold :=
  let pool := training_pool buckets i in
  if split_validation then
    let '(tr, va) := carve_validation random_state validation_ratio pool in
    {| train := tr; validation := va; test := bucket |}
  else {| train := pool; validation := []; test := bucket |}.

(** Modelled from the spec: [leave_pair_out_cv] is imported from the
    package's [utils] module, which is not among the sources.  The spec's
    LPO splitter: the record indices are assigned to [n_cv_splits] buckets by
    a shuffle-then-chunk procedure seeded by [random_state], bucket sizes
    differing by at most one; fold [i] tests bucket [i], its training pool is
    the union of the other buckets, and with [split_validation] a seeded
    subsample of [round (validation_ratio * |pool|)] records of the pool
    becomes the validation set and leaves the training set. *)
Definition leave_pair_out_cv {scalar : Type} (n_cv_splits : nat)
  (response : list scalar) (cell_line_ids drug_ids : list string)
  (split_validation : bool) (validation_ratio : Q) (random_state : Z)
  : list Fold :=
  let buckets := lpo_buckets random_state (length response) n_cv_splits in
  imap (lpo_fold split_validation validation_ratio random_state buckets) buckets.

(** Lines 92-108 of [split_dataset]: the local [cv_splits] after the
    [if]/[elif] chain, [None] when no branch bound it. *)
Definition split_dataset_branches {scalar : Type}
  (self : DrugResponseDataset scalar) (n_cv_splits : nat) (mode : string)
  (split_validation : bool) (validation_ratio : Q) (random_state : Z)
  : result (option (list Fold)) :=
  if String.eqb mode "LPO" then
    Ok (Some (leave_pair_out_cv n_cv_splits (response self)
                (cell_line_ids self) (drug_ids self)
                split_validation validation_ratio random_state))
  else if String.eqb mode "LCO" then
    Raise (NotImplementedError "LCO split mode not implemented")
  else if String.eqb mode "LDO" then
    Raise (NotImplementedError "LDO split mode not implemented")
  else Ok None.

(** [DrugResponseDataset.split_dataset] (lines 74-110): the value returned
    or the exception raised, and [self] afterwards. *)
Definition split_dataset {scalar : Type} (self : DrugResponseDataset scalar)
  (n_cv_splits : nat) (mode : string) (split_validation : bool)
  (validation_ratio : Q) (random_state : Z)
  : result (list Fold) * DrugResponseDataset scalar :=
  match split_dataset_branches self n_cv_splits mode split_validation
          validation_ratio random_state with
  | Raise e => (Raise e, self)
  | Ok None => (Raise (UnboundLocalError "cv_splits"), self)
  | Ok (Some cv) =>
      (Ok cv,
       {| target_type := target_type self;
          response := response self;
          cell_line_ids := cell_line_ids self;
          drug_ids := drug_ids self;
          predictions := predictions self;
          cv_splits := Some cv |})
  end.

End LeavePairOut.

(** ** [FeatureDataset] *)

(** [views_to_randomize : Union[str, list]] *)
Inductive str_or_list : Type :=
  | Str (s : string)
  | StrList (l : list string).

(** [view in views_to_randomize]: a substring test on a [str], membership
    on a [list]. *)
Definition contains (container : str_or_list) (view : string) : bool :=
  match container with
  | Str s => str_contains s view
  | StrList l => bool_decide (view ∈ l)
  end.

(** A loop whose body may raise and updates a state: the first exception
    ends the loop and keeps what was written before it. *)
Fixpoint for_each {S A : Type} (body : A -> S -> result unit * S)
  (xs : list A) (s : S) : result unit * S :=
  match xs with
  | [] => (Ok tt, s)
  | x :: xs' =>
      match body x s with
      | (Ok _, s') => for_each body xs' s'
      | (Raise e, s') => (Raise e, s')
      end
  end.

(** [{k: f(k, x) for k, x in items}] where [f] may raise. *)
Fixpoint dict_comprehension {A V : Type} (f : string -> A -> result V)
  (items : list (string * A)) (acc : dict V) : result (dict V) :=
  match items with
  | [] => Ok acc
  | (k, x) :: items' =>
      bind (f k x) (fun v => dict_comprehension f items' (setitem acc k v))
  end.

Section Features.

Context {scalar rng : Type} `{Numpy scalar rng}.

Definition feature_map : Type := dict (dict (list scalar)).

Record FeatureDataset : Type := {
  features : feature_map;
  view_names : list string;
  identifier : list string
}.

(** The body of [get_ids] (line 212), which reads [self.features] only. *)
Definition ids_of (features : feature_map) : list string := keys features.

(** The body of [get_view_names] (line 218), which reads [self.features]
    only. *)
Definition view_names_of (features : feature_map) : result (list string) :=
  bind (item0 (keys features)) (fun k0 =>
  bind (getitem features k0) (fun views => Ok (keys views))).

Definition get_ids (self : FeatureDataset) : list string :=
  ids_of (features self).

Definition get_view_names (self : FeatureDataset) : result (list string) :=
  view_names_of (features self).

(** [FeatureDataset.__init__] (lines 118-126). *)
Definition FeatureDataset_init (features : feature_map)
  : result FeatureDataset :=
  bind (view_names_of features) (fun names =>
  Ok {| features := features;
        view_names := names;
        identifier := ids_of features |}).

(** [self.features[identifier][view]] *)
Definition feature_vector (features : feature_map) (identifier view : string)
  : result (list scalar) :=
  bind (getitem features identifier) (fun views => getitem views view).

(** [FeatureDataset.get_feature_matrix] (line 228). *)
Definition get_feature_matrix (self : FeatureDataset) (view : string)
  (identifiers : list string) : result (list (list scalar)) :=
  bind (comprehension (fun identifier =>
                         feature_vector (features self) identifier view)
          identifiers)
       np_stack.

(** The entity [identifier] is in the mapping and has a vector of [shape]
    components for [view]. *)
Definition has_view (features : feature_map) (view : string) (shape : nat)
  (identifier : string) : Prop :=
  exists (views : dict (list scalar)) (vector : list scalar),
    get features identifier = Some views
    ∧ get views view = Some vector
    ∧ length vector = shape.

(** [self.features[identifier][view] = vector].  The inner [dict] is
    written in place; two entities that hold one and the same inner object
    are not told apart here, [store_vector_in] below tells them apart. *)
Definition store_vector (features : feature_map) (identifier view : string)
  (vector : list scalar) : result feature_map :=
  bind (getitem features identifier) (fun views =>
  Ok (setitem features identifier (setitem views view vector))).

(** Lines 158-165: the new feature map of one entity.  The permutation is
    drawn when the inner comprehension starts, once for every entity, and is
    zipped with the entity's own view names. *)
Definition permuted_entity (features : feature_map)
  (views_to_randomize : str_or_list) (identifiers : list string)
  (entity : string) (g : rng) : result (dict (list scalar)) * rng :=
  match getitem features entity with
  | Raise e => (Raise e, g)
  | Ok own =>
      let '(permuted, g') := np_random_permutation identifiers g in
      (dict_comprehension
         (fun view other_entity =>
            if negb (contains views_to_randomize view)
            then feature_vector features entity view
            else feature_vector features other_entity view)
         (zip (keys own) permuted) [],
       g')
  end.

(** Lines 157-167: the outer comprehension, threading the generator. *)
Fixpoint permuted_features (features : feature_map)
  (views_to_randomize : str_or_list) (identifiers : list string)
  (entities : list string) (acc : feature_map) (g : rng)
  : result feature_map * rng :=
  match entities with
  | [] => (Ok acc, g)
  | entity :: entities' =>
      match permuted_entity features views_to_randomize identifiers entity g
      with
      | (Raise e, g') => (Raise e, g')
      | (Ok views, g') =>
          permuted_features features views_to_randomize identifiers
            entities' (setitem acc entity views) g'
      end
  end.

(** Lines 172-176: one assignment of the [gaussian] loop. *)
Definition gaussian_step (view identifier : string)
  (s : feature_map * rng) : result unit * (feature_map * rng) :=
  let '(features, g) := s in
  match feature_vector features identifier view with
  | Raise e => (Raise e, s)
  | Ok x =>
      let '(sample, g') := np_random_normal (np_mean x) (np_std x) (length x) g in
      match store_vector features identifier view sample with
      | Raise e => (Raise e, (features, g'))
      | Ok features' => (Ok tt, (features', g'))
      end
  end.

(** Lines 180-182: one assignment of the [zeroing] loop. *)
Definition zeroing_step (view identifier : string)
  (s : feature_map * rng) : result unit * (feature_map * rng) :=
  let '(features, g) := s in
  match feature_vector features identifier view with
  | Raise e => (Raise e, s)
  | Ok x =>
      match store_vector features identifier view (np_zeros (length x)) with
      | Raise e => (Raise e, s)
      | Ok features' => (Ok tt, (features', g))
      end
  end.

(** What the [zeroing] loop over [view] makes of one entity's views. *)
Definition zeroed (view : string) (views : dict (list scalar))
  : dict (list scalar) :=
  match get views view with
  | Some x => setitem views view (np_zeros (length x))
  | None => views
  end.

(** Lines 152-186 of [randomize_features], from a frame in which the local
    [views] is bound to a list. *)
Definition randomize_features_modes (features : feature_map)
  (views_to_randomize : str_or_list) (views : list string) (mode : string)
  (g : rng) : result unit * (feature_map * rng) :=
  if String.eqb mode "permutation" then
    let identifiers := ids_of features in
    match permuted_features features views_to_randomize identifiers
            identifiers [] g with
    | (Raise e, g') => (Raise e, (features, g'))
    | (Ok features', g') => (Ok tt, (features', g'))
    end
  else if String.eqb mode "gaussian" then
    for_each (fun view s =>
                for_each (gaussian_step view) (ids_of (fst s)) s)
      views (features, g)
  else if String.eqb mode "zeroing" then
    for_each (fun view s =>
                for_each (zeroing_step view) (ids_of (fst s)) s)
      views (features, g)
  else
    (Raise (ValueError
              ("Unknown randomization mode '" +:+ mode +:+
               "'. Choose from 'permutation', 'gaussian', 'zeroing'.")),
     (features, g)).

(** The locals of [randomize_features] when its body starts.  Line 150
    assigns to [views], so the name is local to the function; the parameters
    are [self], [views_to_randomize] and [mode], and none of them binds it. *)
Record randomize_frame : Type := {
  local_views_to_randomize : str_or_list;
  local_mode : string;
  local_views : option str_or_list
}.

Definition randomize_entry (views_to_randomize : str_or_list) (mode : string)
  : randomize_frame :=
  {| local_views_to_randomize := views_to_randomize;
     local_mode := mode;
     local_views := None |}.

(** Lines 149-186 run from a frame. *)
Definition randomize_features_from (frame : randomize_frame)
  (self : FeatureDataset) (g : rng)
  : result unit * FeatureDataset * rng :=
  match local_views frame with
  | None => (Raise (UnboundLocalError "views"), self, g)
  | Some v =>
      let views :=
        match v with
        | Str s => [s]
        | StrList l => l
        end in
      let '(r, (features', g')) :=
        randomize_features_modes (features self)
          (local_views_to_randomize frame) views (local_mode frame) g in
      (r,
       {| features := features';
          view_names := view_names self;
          identifier := identifier self |},
       g')
  end.

(** [FeatureDataset.randomize_features] (lines 141-186). *)
Definition randomize_features (self : FeatureDataset)
  (views_to_randomize : str_or_list) (mode : string) (g : rng)
  : result unit * FeatureDataset * rng :=
  randomize_features_from (randomize_entry views_to_randomize mode) self g.

End Features.

Arguments feature_map : clear implicits.
Arguments FeatureDataset : clear implicits.

(** ** What the loops of [randomize_features] compute *)

Section RandomizeOutcomes.

Context {scalar rng : Type} `{Numpy scalar rng}.

(** The mapping after the [zeroing] loops over [views], one after the
    other. *)
Definition zeroed_all (views : list string) (features : feature_map scalar)
  : feature_map scalar :=
  foldl (fun acc view => map (fun '(id, vs) => (id, zeroed view vs)) acc)
    features views.

(** The vector the [zeroing] loops over [views] leave for [view] where [x]
    was. *)
Definition zero_if_targeted (views : list string) (view : string)
  (x : list scalar) : list scalar :=
  if bool_decide (view ∈ views) then replicate (length x) np_zero else x.

End RandomizeOutcomes.

(** ** The in-place loops over inner dictionaries that may be shared

    [self.features[identifier]] evaluates to a reference to a [dict] object,
    and lines 172 and 180 write into that object.  When two identifiers hold
    one and the same inner [dict], what is written through one is read
    through the other.  Here the outer mapping holds references and the
    inner dictionaries live in a store.  The arrays themselves are never
    written to: both lines bind the view to a new array. *)

(** The identity of an inner [dict]. *)
Definition loc : Type := nat.

(** [self.features]: every identifier with the inner [dict] it refers to. *)
Definition feature_refs : Type := dict loc.

(** The store after a write to the object at [l]: the new contents at [l],
    the old ones everywhere else. *)
Definition write {V : Type} (objects : loc -> V) (l : loc) (v : V)
  : loc -> V :=
  fun l' => if Nat.eqb l' l then v else objects l'.

Section InPlace.

Context {scalar rng : Type} `{Numpy scalar rng}.

(** The contents of the inner dictionaries. *)
Definition object_store : Type := loc -> dict (list scalar).

(** The mapping a reader of [self.features] sees. *)
Definition features_of (refs : feature_refs) (objects : object_store)
  : feature_map scalar :=
  map (fun '(identifier, l) => (identifier, objects l)) refs.

(** [self.features[identifier][view]] *)
Definition feature_vector_in (refs : feature_refs) (objects : object_store)
  (identifier view : string) : result (list scalar) :=
  bind (getitem refs identifier) (fun l => getitem (objects l) view).

(** [self.features[identifier][view] = vector]: the outer mapping is only
    read, the inner [dict] it refers to is written. *)
Definition store_vector_in (refs : feature_refs) (objects : object_store)
  (identifier view : string) (vector : list scalar) : result object_store :=
  bind (getitem refs identifier) (fun l =>
  Ok (write objects l (setitem (objects l) view vector))).

(** Lines 172-176: one assignment of the [gaussian] loop. *)
Definition gaussian_step_in_place (refs : feature_refs)
  (view identifier : string) (s : object_store * rng)
  : result unit * (object_store * rng) :=
  let '(objects, g) := s in
  match feature_vector_in refs objects identifier view with
  | Raise e => (Raise e, s)
  | Ok x =>
      let '(sample, g') := np_random_normal (np_mean x) (np_std x) (length x) g in
      match store_vector_in refs objects identifier view sample with
      | Raise e => (Raise e, (objects, g'))
      | Ok objects' => (Ok tt, (objects', g'))
      end
  end.

(** Lines 180-182: one assignment of the [zeroing] loop. *)
Definition zeroing_step_in_place (refs : feature_refs)
  (view identifier : string) (s : object_store * rng)
  : result unit * (object_store * rng) :=
  let '(objects, g) := s in
  match feature_vector_in refs objects identifier view with
  | Raise e => (Raise e, s)
  | Ok x =>
      match store_vector_in refs objects identifier view (np_zeros (length x))
      with
      | Raise e => (Raise e, s)
      | Ok objects' => (Ok tt, (objects', g))
      end
  end.

(** Lines 170-176, from a frame in which [views] is bound to a list.  The
    outer mapping is not assigned to, so [self.get_ids()] is the same list
    in every round. *)
Definition gaussian_in_place (refs : feature_refs) (views : list string)
  (s : object_store * rng) : result unit * (object_store * rng) :=
  for_each (fun view s' =>
              for_each (gaussian_step_in_place refs view) (keys refs) s')
    views s.

(** Lines 178-182, from a frame in which [views] is bound to a list. *)
Definition zeroing_in_place (refs : feature_refs) (views : list string)
  (s : object_store * rng) : result unit * (object_store * rng) :=
  for_each (fun view s' =>
              for_each (zeroing_step_in_place refs view) (keys refs) s')
    views s.


End InPlace.

Arguments object_store : clear implicits.

(** ** scikit-learn and numpy, as far as [RandomForest] uses them *)

(** The values of the hyperparameters: [int], [str], [float] and [None]. *)
Inductive hpam_value : Type :=
  | HInt (n : Z)
  | HStr (s : string)
  | HFloat (q : Q)
  | HNone.

(** The keyword arguments [build_model] passes to the estimator. *)
Record forest_arguments : Type := {
  arg_n_estimators : hpam_value;
  arg_criterion : hpam_value;
  arg_max_depth : hpam_value;
  arg_min_samples_split : hpam_value;
  arg_min_samples_leaf : hpam_value;
  arg_n_jobs : hpam_value;
  arg_max_samples : hpam_value
}.

(** The estimator: its constructor stores the arguments; [fit] and
    [predict] may raise, and [fit] leaves the fitted estimator. *)
Class Sklearn (scalar estimator : Type) : Type := {
  RandomForestRegressor : forest_arguments -> estimator;
  sk_fit : estimator -> list (list scalar) -> list scalar -> result estimator;
  sk_predict : estimator -> list (list scalar) -> result (list scalar)
}.

(** [np.concatenate((a, b), axis=1)] on two-dimensional arrays given as
    their rows: the row counts must agree. *)
Definition np_concatenate_axis1 {scalar : Type} (a b : list (list scalar))
  : result (list (list scalar)) :=
  if Nat.eqb (length a) (length b) then Ok (zip_with app a b)
  else
    Raise (ValueError
             "all the input array dimensions except for the concatenation axis must match exactly").

(** ** [RandomForest] ([dreval/models/Baselines/random_forest.py])

    [self.model] is passed and returned: what the attribute holds before
    [build_model] is decided by the base class [DRPModel], which is not
    among the sources. *)

Module RandomForest.

Definition model_name : string := "RandomForest".
Definition cell_line_views : list string := ["gene_expression"].
Definition drug_views : list string := ["fingerprints"].

(** [get_hyperparameter_set] (lines 15-35): three literal dicts, each then
    given its ['feature_path']. *)
Definition get_hyperparameter_set : list (dict hpam_value) :=
  let hpams :=
    [ [("n_estimators", HInt 100); ("criterion", HStr "squared_error");
       ("max_depth", HNone); ("min_samples_split", HInt 2);
       ("min_samples_leaf", HInt 1); ("n_jobs", HInt 3);
       ("max_samples", HFloat (7 # 10))];
      [("n_estimators", HInt 100); ("criterion", HStr "absolute_error");
       ("max_depth", HInt 10); ("min_samples_split", HInt 5);
       ("min_samples_leaf", HInt 2); ("n_jobs", HInt 3);
       ("max_samples", HFloat (7 # 10))];
      [("n_estimators", HInt 50); ("criterion", HStr "squared_error");
       ("max_depth", HInt 5); ("min_samples_split", HInt 10);
       ("min_samples_leaf", HInt 5); ("n_jobs", HInt 3);
       ("max_samples", HFloat (7 # 10))] ] in
  map (fun hpam => setitem hpam "feature_path" (HStr "data/GDSC")) hpams.

(** The keys [build_model] reads, in the order it reads them. *)
Definition estimator_keys : list string :=
  ["n_estimators"; "criterion"; "max_depth"; "min_samples_split";
   "min_samples_leaf"; "n_jobs"; "max_samples"].

Section Methods.

Context {scalar estimator : Type} `{Sklearn scalar estimator}.

(** [build_model] (lines 37-48): the estimator stored in [self.model].  The
    keyword arguments are evaluated from left to right. *)
Definition build_model (hyperparameters : dict hpam_value)
  : result estimator :=
  bind (getitem hyperparameters "n_estimators") (fun a1 =>
  bind (getitem hyperparameters "criterion") (fun a2 =>
  bind (getitem hyperparameters "max_depth") (fun a3 =>
  bind (getitem hyperparameters "min_samples_split") (fun a4 =>
  bind (getitem hyperparameters "min_samples_leaf") (fun a5 =>
  bind (getitem hyperparameters "n_jobs") (fun a6 =>
  bind (getitem hyperparameters "max_samples") (fun a7 =>
  Ok (RandomForestRegressor
        {| arg_n_estimators := a1;
           arg_criterion := a2;
           arg_max_depth := a3;
           arg_min_samples_split := a4;
           arg_min_samples_leaf := a5;
           arg_n_jobs := a6;
           arg_max_samples := a7 |})))))))).

(** [train] (lines 50-60): [self.model] after the call. *)
Definition train (model : estimator) (output : DrugResponseDataset scalar)
  (gene_expression fingerprints : list (list scalar)) : result estimator :=
  bind (np_concatenate_axis1 gene_expression fingerprints) (fun X =>
  sk_fit model X (response output)).

(** [predict] (lines 62-72). *)
Definition predict (model : estimator)
  (gene_expression fingerprints : list (list scalar))
  : result (list scalar) :=
  bind (np_concatenate_axis1 gene_expression fingerprints) (fun X =>
  sk_predict model X).

End Methods.

End RandomForest.

(** ** Concrete instances, to run the definitions on *)

(** [insert_at i x l] puts [x] before position [i] of [l]. *)
Definition insert_at (i : nat) (x : nat) (l : list nat) : list nat :=
  take i l ++ x :: drop i l.

(** A linear congruential step. *)
Definition lcg_next (state : Z) : Z :=
  ((1103515245 * state + 12345) mod 2147483648)%Z.

(** A seeded shuffle: every element is inserted at a pseudo-random place of
    the shuffled rest. *)
Fixpoint lcg_shuffle (seed : Z) (l : list nat) : list nat :=
  match l with
  | [] => []
  | x :: l' =>
      let rest := lcg_shuffle (lcg_next seed) l' in
      insert_at (Z.to_nat (lcg_next seed mod Z.of_nat (S (length rest)))) x rest
  end.

(** Integer stand-ins for numpy's floating-point routines; the generator's
    state is a counter. *)
Definition example_mean (x : list Z) : Z :=
  (foldr Z.add 0 x / Z.of_nat (length x))%Z.

#[local] Instance example_numpy : Numpy Z nat := {|
  np_zero := 0%Z;
  np_mean := example_mean;
  np_std := fun _ => 1%Z;
  np_random_normal := fun mu sigma shape g =>
    (replicate shape (mu + sigma * Z.of_nat g)%Z, S g);
  np_random_permutation := fun ids g => (rotate (S g) ids, S g)
|}.

Definition example_responses : DrugResponseDataset Z :=
  {| target_type := "IC50";
     response := [10; 20; 30; 40; 50; 60; 70]%Z;
     cell_line_ids := ["c1"; "c1"; "c2"; "c2"; "c3"; "c3"; "c4"];
     drug_ids := ["d1"; "d2"; "d1"; "d2"; "d1"; "d2"; "d1"];
     predictions := None;
     cv_splits := None |}.

Definition example_feature_map : feature_map Z :=
  [("a", [("viewA", [1; 2]%Z); ("viewB", [3; 4; 5]%Z)]);
   ("b", [("viewA", [6; 7]%Z); ("viewB", [8; 9; 10]%Z)]);
   ("c", [("viewA", [11; 12]%Z)])].

(** Four entities with a [fingerprint] view of three components. *)
Definition example_fingerprints : FeatureDataset Z :=
  {| features :=
       [("a", [("fingerprint", [1; 0; 1]%Z)]);
        ("b", [("fingerprint", [0; 1; 1]%Z)]);
        ("c", [("fingerprint", [1; 1; 0]%Z)]);
        ("d", [("fingerprint", [0; 0; 1]%Z)])];
     view_names := ["fingerprint"];
     identifier := ["a"; "b"; "c"; "d"] |}.

Definition example_features : FeatureDataset Z :=
  {| features := example_feature_map;
     view_names := ["viewA"; "viewB"];
     identifier := ["a"; "b"; "c"] |}.

(** An estimator that only remembers what it was given: its arguments,
    and the design matrix and the targets of the last [fit]. *)
Record recording_estimator : Type := {
  seen_arguments : forest_arguments;
  seen_fit : option (list (list Z) * list Z)
}.

#[local] Instance example_sklearn : Sklearn Z recording_estimator := {|
  RandomForestRegressor := fun arguments =>
    {| seen_arguments := arguments; seen_fit := None |};
  sk_fit := fun model X y =>
    Ok {| seen_arguments := seen_arguments model; seen_fit := Some (X, y) |};
  sk_predict := fun model X => Ok (map (foldr Z.add 0%Z) X)
|}.

(** Cell lines with a [gene_expression] view and drugs with a
    [fingerprints] view. *)
Definition example_cell_lines : FeatureDataset Z :=
  {| features :=
       [("c1", [("gene_expression", [1; 2]%Z)]);
        ("c2", [("gene_expression", [3; 4]%Z)])];
     view_names := ["gene_expression"];
     identifier := ["c1"; "c2"] |}.

Definition example_drugs : FeatureDataset Z :=
  {| features :=
       [("d1", [("fingerprints", [1; 0; 1]%Z)]);
        ("d2", [("fingerprints", [0; 1; 1]%Z)])];
     view_names := ["fingerprints"];
     identifier := ["d1"; "d2"] |}.

(** Two entities whose vectors for one view differ in length. *)
Definition example_ragged : FeatureDataset Z :=
  {| features :=
       [("a", [("viewA", [1; 2]%Z)]); ("b", [("viewA", [3; 4; 5]%Z)])];
     view_names := ["viewA"];
     identifier := ["a"; "b"] |}.

(** An entity without the view the first entity has. *)
Definition example_heterogeneous : feature_map Z :=
  [("a", [("viewA", [1; 2]%Z); ("viewB", [3; 4; 5]%Z)]);
   ("b", [("viewA", [6; 7]%Z)]);
   ("c", [("viewA", [8; 9]%Z); ("viewB", [10; 11; 12]%Z)])].

(** Three identifiers over two inner dictionaries: [a] and [c] hold one
    and the same, and the one of [b] has no [viewB]. *)
Definition example_refs : feature_refs := [("a", 0); ("b", 1); ("c", 0)].

Definition example_objects : object_store Z := fun l =>
  match l with
  | 0 => [("viewA", [1; 2]%Z); ("viewB", [3; 4; 5]%Z)]
  | _ => [("viewA", [6; 7]%Z)]
  end.

(** Two identifiers, each with an inner dictionary of its own. *)
Definition example_unshared_refs : feature_refs := [("a", 0); ("b", 1)].

(** Three response records over the example cell lines and drugs. *)
Definition example_pairs : DrugResponseDataset Z :=
  {| target_type := "IC50";
     response := [5; 6; 7]%Z;
     cell_line_ids := ["c1"; "c2"; "c1"];
     drug_ids := ["d1"; "d1"; "d2"];
     predictions := None;
     cv_splits := None |}.

Definition example_model : recording_estimator :=
  {| seen_arguments :=
       {| arg_n_estimators := HInt 100;
          arg_criterion := HStr "squared_error";
          arg_max_depth := HNone;
          arg_min_samples_split := HInt 2;
          arg_min_samples_leaf := HInt 1;
          arg_n_jobs := HInt 3;
          arg_max_samples := HFloat (7 # 10) |};
     seen_fit := None |}.

(** ** Arithmetic of [round] and of the bucket sizes *)

Lemma round_nonneg (q : Q) : (0 <= q)%Q -> (0 <= round q)%Z.
Proof.
  intros Hq. unfold round.
  assert (Hf : (0 <= Qfloor q)%Z).
  { change 0%Z with (Qfloor 0). by apply Qfloor_resp_le. }
  destruct (Qcompare _ _); [destruct (Z.even _) | |]; lia.
Qed.



Lemma length_bucket_sizes (n k : nat) : length (bucket_sizes n k) = k.
Proof. unfold bucket_sizes. by rewrite length_map, length_seq. Qed.

Lemma sum_list_shifted (a : nat) (f : nat -> nat) (l : list nat) :
  sum_list (map (fun i => a + f i) l) = length l * a + sum_list (map f l).
Proof. induction l as [|x l IH]; simpl; [done|]. rewrite IH. lia. Qed.

Lemma sum_list_below (m j k : nat) :
  sum_list (map (fun i => if i <? m then 1 else 0) (seq j k))
  = Nat.min (m - j) k.
Proof.
  revert j. induction k as [|k IH]; intros j; simpl.
  - lia.
  - rewrite IH. destruct (Nat.ltb_spec j m); lia.
Qed.

Lemma sum_bucket_sizes (n k : nat) : 0 < k -> sum_list (bucket_sizes n k) = n.
Proof.
  intros Hk. unfold bucket_sizes.
  rewrite sum_list_shifted, sum_list_below, length_seq.
  pose proof (Nat.mod_upper_bound n k ltac:(lia)).
  pose proof (Nat.div_mod_eq n k). lia.
Qed.

Lemma bucket_sizes_balanced (n k : nat) (s : nat) :
  s ∈ bucket_sizes n k -> n / k ≤ s ≤ n / k + 1.
Proof.
  unfold bucket_sizes. rewrite list_elem_of_fmap.
  intros (i & -> & _). destruct (i <? n mod k); lia.
Qed.

(** ** The buckets partition the record indices *)

Lemma join_delete {A : Type} (ls : list (list A)) (i : nat) (l : list A) :
  ls !! i = Some l -> mjoin ls ≡ₚ l ++ mjoin (delete i ls).
Proof.
  intros Hi. rewrite <- (take_drop_middle ls i l Hi) at 1.
  rewrite delete_take_drop, !join_app. simpl.
  by rewrite Permutation_app_swap_app.
Qed.

Lemma join_disjoint {A : Type} (ls : list (list A)) (i j : nat)
  (li lj : list A) (x : A) :
  NoDup (mjoin ls) -> ls !! i = Some li -> ls !! j = Some lj -> i ≠ j ->
  x ∈ li -> x ∉ lj.
Proof.
  intros Hnd Hi Hj Hne Hx.
  rewrite (join_delete ls i li Hi) in Hnd.
  apply NoDup_app in Hnd as (_ & Hdisj & _).
  intros Hxj. apply (Hdisj x Hx).
  apply list_elem_of_join. exists lj. split; [done|].
  apply list_elem_of_lookup.
  destruct (decide (j < i)) as [Hlt|Hge].
  - exists j. by rewrite list_lookup_delete_lt.
  - exists (pred j). rewrite list_lookup_delete_ge by lia.
    by replace (S (pred j)) with j by lia.
Qed.

Section LeavePairOutFacts.

Variable shuffle : seeded_shuffle.
Hypothesis shuffle_permutes : permutes shuffle.

Lemma length_lpo_buckets (seed : Z) (n k : nat) :
  length (lpo_buckets shuffle seed n k) = k.
Proof. unfold lpo_buckets. by rewrite length_reshape, length_bucket_sizes. Qed.

Lemma join_lpo_buckets (seed : Z) (n k : nat) :
  0 < k -> mjoin (lpo_buckets shuffle seed n k) = shuffle seed (seq 0 n).
Proof.
  intros Hk. unfold lpo_buckets. apply join_reshape.
  rewrite sum_bucket_sizes by done.
  by rewrite (Permutation_length (shuffle_permutes seed (seq 0 n))), length_seq.
Qed.

Lemma lpo_buckets_partition (seed : Z) (n k : nat) :
  0 < k -> mjoin (lpo_buckets shuffle seed n k) ≡ₚ seq 0 n.
Proof. intros Hk. rewrite join_lpo_buckets by done. apply shuffle_permutes. Qed.

Lemma test_leave_pair_out_cv {scalar : Type} (k : nat)
  (response : list scalar) (cells drugs : list string) (sv : bool) (r : Q)
  (seed : Z) :
  test <$> leave_pair_out_cv shuffle k response cells drugs sv r seed
  = lpo_buckets shuffle seed (length response) k.
Proof.
  unfold leave_pair_out_cv. apply list_eq. intros i.
  rewrite list_lookup_fmap, list_lookup_imap.
  destruct (_ !! i) as [b|]; simpl; [|done].
  unfold lpo_fold. destruct sv; [|done].
  by destruct (carve_validation _ _ _ _).
Qed.


End LeavePairOutFacts.

Lemma insert_at_Permutation (i x : nat) (l : list nat) :
  insert_at i x l ≡ₚ x :: l.
Proof.
  unfold insert_at. rewrite <- Permutation_middle. by rewrite take_drop.
Qed.

Lemma lcg_shuffle_permutes : permutes lcg_shuffle.
Proof.
  intros seed l. revert seed.
  induction l as [|x l IH]; intros seed; simpl; [done|].
  rewrite insert_at_Permutation. by rewrite IH.
Qed.

(** ** [split_dataset] in mode ["LPO"] *)

Section SplitDatasetLPO.

Variable shuffle : seeded_shuffle.
Hypothesis shuffle_permutes : permutes shuffle.
Context {scalar : Type}.

Implicit Types (ds : DrugResponseDataset scalar) (k : nat) (sv : bool).
Implicit Types (r : Q) (seed : Z).

(** The ["LPO"] branch returns the splitter's folds and caches them. *)
Lemma split_dataset_LPO ds k sv r seed :
  split_dataset shuffle ds k "LPO" sv r seed
  = let cv := leave_pair_out_cv shuffle k (response ds) (cell_line_ids ds)
                (drug_ids ds) sv r seed in
    (Ok cv,
     {| target_type := target_type ds;
        response := response ds;
        cell_line_ids := cell_line_ids ds;
        drug_ids := drug_ids ds;
        predictions := predictions ds;
        cv_splits := Some cv |}).
Proof. reflexivity. Qed.

(** C1: with [k >= 1] folds, [split_dataset k "LPO"] returns [k] fold
    descriptors whose test sets are pairwise disjoint and together hold
    every record index [0 .. N-1] exactly once. *)
Theorem lpo_test_folds_partition ds k sv r seed :
  0 < k ->
  exists folds : list Fold,
    fst (split_dataset shuffle ds k "LPO" sv r seed) = Ok folds
    ∧ length folds = k
    ∧ (forall (i j : nat) (fi fj : Fold) (x : nat),
         folds !! i = Some fi -> folds !! j = Some fj -> i ≠ j ->
         x ∈ test fi -> x ∉ test fj)
    ∧ (forall x : nat,
         x < length (response ds) <-> exists f, f ∈ folds ∧ x ∈ test f)
    ∧ mjoin (test <$> folds) ≡ₚ seq 0 (length (response ds)).
Proof.
  intros Hk. rewrite split_dataset_LPO. simpl.
  eexists. split; [reflexivity|].
  set (folds := leave_pair_out_cv _ _ _ _ _ _ _ _).
  assert (Htest : test <$> folds
                  = lpo_buckets shuffle seed (length (response ds)) k)
    by apply test_leave_pair_out_cv.
  assert (Hpart : mjoin (test <$> folds) ≡ₚ seq 0 (length (response ds))).
  { rewrite Htest. by apply lpo_buckets_partition. }
  split_and!.
  - by rewrite <- (length_fmap test), Htest, length_lpo_buckets.
  - intros i j fi fj x Hi Hj Hne Hx.
    eapply (join_disjoint (test <$> folds) i j); [| | |exact Hne|exact Hx].
    + rewrite Hpart. apply NoDup_seq.
    + by rewrite list_lookup_fmap, Hi.
    + by rewrite list_lookup_fmap, Hj.
  - intros x. transitivity (x ∈ mjoin (test <$> folds)).
    + rewrite Hpart, elem_of_seq. lia.
    + rewrite list_elem_of_join. split.
      * intros (l & Hx & Hl). apply list_elem_of_fmap in Hl as (f & -> & Hf).
        by exists f.
      * intros (f & Hf & Hx). exists (test f). split; [done|].
        apply list_elem_of_fmap. by exists f.
  - done.
Qed.


End SplitDatasetLPO.

Lemma lpo_test_folds_partition_witness :
  permutes lcg_shuffle
  ∧ 0 < 3
  ∧ exists folds : list Fold,
      fst (split_dataset lcg_shuffle example_responses 3 "LPO" true (1 # 10) 42)
      = Ok folds
      ∧ length folds = 3
      ∧ (forall (i j : nat) (fi fj : Fold) (x : nat),
           folds !! i = Some fi -> folds !! j = Some fj -> i ≠ j ->
           x ∈ test fi -> x ∉ test fj)
      ∧ (forall x : nat,
           x < length (response example_responses)
           <-> exists f, f ∈ folds ∧ x ∈ test f)
      ∧ mjoin (test <$> folds) ≡ₚ seq 0 (length (response example_responses)).
Proof.
  split; [exact lcg_shuffle_permutes|]. split; [lia|].
  apply (lpo_test_folds_partition lcg_shuffle lcg_shuffle_permutes
           example_responses 3 true (1 # 10) 42).
  lia.
Defined.


(** ** [DrugResponseDataset]: construction and the other split modes *)

Section DrugResponseFacts.

Variable shuffle : seeded_shuffle.
Context {scalar : Type}.

Implicit Types (ds : DrugResponseDataset scalar) (k : nat) (sv : bool).
Implicit Types (r : Q) (seed : Z).

(** C4, as the code has it: the constructor compares no lengths and
    never fails; the object holds the three sequences as they were given,
    with no predictions and no cached folds. *)
Theorem DrugResponseDataset_init_stores (kind : string)
  (values : list scalar) (cells drugs : list string) :
  exists ds,
    DrugResponseDataset_init kind values cells drugs = Ok ds
    ∧ target_type ds = kind
    ∧ response ds = values
    ∧ cell_line_ids ds = cells
    ∧ drug_ids ds = drugs
    ∧ predictions ds = None
    ∧ cv_splits ds = None.
Proof. eexists. split; [reflexivity|]. by split_and!. Qed.

(** C6: the modes ["LCO"] and ["LDO"] raise [NotImplementedError] and leave
    the dataset as it was. *)
Theorem split_dataset_LCO_LDO_not_implemented ds k sv r seed :
  split_dataset shuffle ds k "LCO" sv r seed
  = (Raise (NotImplementedError "LCO split mode not implemented"), ds)
  ∧ split_dataset shuffle ds k "LDO" sv r seed
    = (Raise (NotImplementedError "LDO split mode not implemented"), ds).
Proof. split; reflexivity. Qed.

(** C5, as the code has it: a mode other than ["LPO"], ["LCO"] and ["LDO"]
    passes the [if]/[elif] chain, which has no [else], and line 109 reads
    the local [cv_splits] no branch has bound: [UnboundLocalError], not a
    [ValueError]; the dataset is left as it was. *)
Theorem split_dataset_unknown_mode ds k (mode : string) sv r seed :
  mode ≠ "LPO" -> mode ≠ "LCO" -> mode ≠ "LDO" ->
  split_dataset shuffle ds k mode sv r seed
  = (Raise (UnboundLocalError "cv_splits"), ds).
Proof.
  intros Hlpo Hlco Hldo.
  unfold split_dataset, split_dataset_branches.
  apply String.eqb_neq in Hlpo, Hlco, Hldo.
  by rewrite Hlpo, Hlco, Hldo.
Qed.

End DrugResponseFacts.

(** The constructor accepts three sequences of three different lengths. *)
Lemma DrugResponseDataset_init_unequal_lengths :
  exists ds : DrugResponseDataset Z,
    DrugResponseDataset_init "IC50" [1; 2]%Z ["c1"] [] = Ok ds
    ∧ length (response ds) = 2
    ∧ length (cell_line_ids ds) = 1
    ∧ length (drug_ids ds) = 0.
Proof. eexists. split; [reflexivity|]. by split_and!. Qed.

Lemma split_dataset_unknown_mode_witness :
  "XYZ" ≠ "LPO" ∧ "XYZ" ≠ "LCO" ∧ "XYZ" ≠ "LDO"
  ∧ split_dataset lcg_shuffle example_responses 5 "XYZ" true (1 # 10) 42
    = (Raise (UnboundLocalError "cv_splits"), example_responses).
Proof.
  split_and!; [done..|].
  apply (split_dataset_unknown_mode lcg_shuffle example_responses 5 "XYZ"
           true (1 # 10) 42); done.
Defined.

(** ** [FeatureDataset] *)

Section FeatureFacts.

Context {scalar rng : Type} `{Numpy scalar rng}.

Implicit Types (self : FeatureDataset scalar) (features : feature_map scalar).
Implicit Types (view id : string) (ids : list string) (g : rng).

Lemma get_head {V : Type} (k : string) (v : V) (d : dict V) :
  get ((k, v) :: d) k = Some v.
Proof. simpl. by rewrite String.eqb_refl. Qed.

Lemma view_names_of_cons id (views : dict (list scalar)) features :
  view_names_of ((id, views) :: features) = Ok (keys views).
Proof.
  unfold view_names_of, getitem. simpl. by rewrite String.eqb_refl.
Qed.

(** C10: an empty mapping makes the constructor fail on [keys()[0]]; a
    constructed dataset has an entity; and [get_view_names] is the key list
    of the first entity's views, whatever the other entities hold. *)
Theorem FeatureDataset_first_entity :
  FeatureDataset_init ([] : feature_map scalar)
  = Raise (IndexError "list index out of range")
  ∧ (forall features self,
       FeatureDataset_init features = Ok self ->
       features ≠ [] ∧ 1 ≤ length (get_ids self)
       ∧ get_view_names self = Ok (view_names self))
  ∧ (forall id (views : dict (list scalar)) (others : feature_map scalar)
       (names identifiers : list string),
       get_view_names {| features := (id, views) :: others;
                         view_names := names;
                         identifier := identifiers |}
       = Ok (keys views)
       ∧ FeatureDataset_init ((id, views) :: others)
         = Ok {| features := (id, views) :: others;
                 view_names := keys views;
                 identifier := id :: keys others |}).
Proof.
  split_and!.
  - reflexivity.
  - intros features self Hinit.
    destruct features as [|[id views] others]; [discriminate|].
    unfold FeatureDataset_init in Hinit.
    rewrite view_names_of_cons in Hinit. simpl in Hinit.
    injection Hinit as <-. split_and!; [done|simpl; lia|].
    unfold get_view_names. simpl. apply view_names_of_cons.
  - intros id views others names identifiers. split.
    + unfold get_view_names. simpl. apply view_names_of_cons.
    + unfold FeatureDataset_init. by rewrite view_names_of_cons.
Qed.

(** Line 149 reads [views] before anything binds it: every call raises,
    whatever the mode, and neither the features nor the generator move. *)
Lemma randomize_features_raises self (views_to_randomize : str_or_list)
  (mode : string) g :
  randomize_features self views_to_randomize mode g
  = (Raise (UnboundLocalError "views"), self, g).
Proof. reflexivity. Qed.

(** C7, as the code has it: in mode ["permutation"] the call raises
    [UnboundLocalError] at line 149; no permutation is drawn and no vector
    is replaced. *)
Theorem randomize_features_permutation_raises self
  (views_to_randomize : str_or_list) g :
  randomize_features self views_to_randomize "permutation" g
  = (Raise (UnboundLocalError "views"), self, g).
Proof. apply randomize_features_raises. Qed.

(** C8, as the code has it: [randomize_features(["viewA"], "zeroing")]
    raises [UnboundLocalError] at line 149 and zeroes nothing. *)
Theorem randomize_features_zeroing_raises self g :
  randomize_features self (StrList ["viewA"]) "zeroing" g
  = (Raise (UnboundLocalError "views"), self, g).
Proof. apply randomize_features_raises. Qed.

End FeatureFacts.

(** ** Matrix assembly *)

Lemma comprehension_Forall2 {A B : Type} (f : A -> result B) (xs : list A)
  (ys : list B) :
  Forall2 (fun x y => f x = Ok y) xs ys -> comprehension f xs = Ok ys.
Proof.
  induction 1 as [|x y xs ys Hx _ IH]; simpl; [done|].
  by rewrite Hx, IH.
Qed.

Lemma comprehension_first_raise {A B : Type} (f : A -> result B)
  (pre : list A) (x : A) (post : list A) (e : exn) :
  Forall (fun x' => exists y, f x' = Ok y) pre -> f x = Raise e ->
  comprehension f (pre ++ x :: post) = Raise e.
Proof.
  intros Hpre Hx. induction Hpre as [|x' pre [y Hy] _ IH]; simpl.
  - by rewrite Hx.
  - by rewrite Hy, IH.
Qed.

Lemma np_stack_same_shape {scalar : Type} (rows : list (list scalar))
  (shape : nat) :
  rows ≠ [] -> Forall (fun row => length row = shape) rows ->
  np_stack rows = Ok rows.
Proof.
  intros Hne Hrows. destruct rows as [|row rows]; [done|].
  apply Forall_cons in Hrows as [Hrow Hrows]. simpl.
  replace (forallb _ rows) with true; [done|].
  symmetry. apply forallb_forall. intros row' Hin. apply Nat.eqb_eq.
  rewrite Forall_forall in Hrows.
  rewrite Hrow. apply Hrows. by apply list_elem_of_In.
Qed.

Section FeatureMatrixFacts.

Context {scalar : Type}.

Implicit Types (self : FeatureDataset scalar) (view id : string).
Implicit Types (ids : list string).

Lemma has_view_feature_vector (features : feature_map scalar) view
  (shape : nat) id :
  has_view features view shape id <->
  exists vector, feature_vector features id view = Ok vector
                 ∧ length vector = shape.
Proof.
  unfold has_view, feature_vector, getitem. split.
  - intros (views & vector & -> & Hv & Hlen). simpl. rewrite Hv. by exists vector.
  - intros (vector & Hv & Hlen).
    destruct (get features id) as [views|]; simpl in Hv; [|done].
    destruct (get views view) as [vector'|] eqn:Hview; [|done].
    exists views, vector'. by simplify_eq.
Qed.

Lemma has_view_of_rows (features : feature_map scalar) view ids
  (matrix : list (list scalar)) (shape : nat) :
  Forall2 (fun id row => feature_vector features id view = Ok row)
    ids matrix ->
  Forall (fun row => length row = shape) matrix ->
  Forall (has_view features view shape) ids.
Proof.
  induction 1 as [|id row ids matrix Hrow _ IH]; intros Hshape; [done|].
  apply Forall_cons in Hshape as [Hlen Hshape]. constructor; [|by apply IH].
  apply has_view_feature_vector. by exists row.
Qed.

(** C9, as the code has it: the identifiers are looked up in the given
    order and the first one that is absent from the mapping, or present
    without the view, ends the call with a [KeyError] that names the
    identifier, respectively the view; when every identifier is present with
    a vector of one common shape for the view and there is at least one
    identifier, the result is the matrix whose row [i] is the stored vector
    of identifier [i]; with no identifier at all, and with vectors that do
    not all have one shape, the call ends with the [ValueError] of
    [np.stack]. *)
Theorem get_feature_matrix_outcomes self view :
  (forall (pre : list string) id (post : list string),
     Forall (fun id' => exists shape,
                 has_view (features self) view shape id') pre ->
     get (features self) id = None ->
     get_feature_matrix self view (pre ++ id :: post) = Raise (KeyError id))
  ∧ (forall (pre : list string) id (post : list string)
       (views : dict (list scalar)),
       Forall (fun id' => exists shape,
                   has_view (features self) view shape id') pre ->
       get (features self) id = Some views -> get views view = None ->
       get_feature_matrix self view (pre ++ id :: post)
       = Raise (KeyError view))
  ∧ (forall ids (shape : nat),
       ids ≠ [] -> Forall (has_view (features self) view shape) ids ->
       exists matrix,
         get_feature_matrix self view ids = Ok matrix
         ∧ Forall2 (fun id row =>
                      feature_vector (features self) id view = Ok row
                      ∧ length row = shape) ids matrix)
  ∧ get_feature_matrix self view []
    = Raise (ValueError "need at least one array to stack")
  ∧ (forall ids,
       Forall (fun id => exists shape,
                   has_view (features self) view shape id) ids ->
       ~ (exists shape, Forall (has_view (features self) view shape) ids) ->
       get_feature_matrix self view ids
       = Raise (ValueError "all input arrays must have the same shape")).
Proof.
  assert (Hpre : forall pre : list string,
    Forall (fun id' => exists shape,
                has_view (features self) view shape id') pre ->
    Forall (fun id' => exists row,
                feature_vector (features self) id' view = Ok row) pre).
  { intros pre Hall. eapply Forall_impl; [exact Hall|].
    intros id' [shape Hid'].
    apply has_view_feature_vector in Hid' as (row & Hrow & _). by exists row. }
  split_and!.
  - intros pre id post Hok Hid. unfold get_feature_matrix.
    rewrite (comprehension_first_raise _ pre id post (KeyError id));
      [done|by apply Hpre|].
    unfold feature_vector, getitem. by rewrite Hid.
  - intros pre id post views Hok Hid Hview. unfold get_feature_matrix.
    rewrite (comprehension_first_raise _ pre id post (KeyError view));
      [done|by apply Hpre|].
    unfold feature_vector, getitem. rewrite Hid. simpl. by rewrite Hview.
  - intros ids shape Hne Hids.
    assert (Hrows : exists matrix,
      Forall2 (fun id row =>
                 feature_vector (features self) id view = Ok row
                 ∧ length row = shape) ids matrix).
    { clear Hne. induction Hids as [|id ids Hid _ [matrix IH]].
      - by exists [].
      - apply has_view_feature_vector in Hid as (row & Hrow & Hlen).
        exists (row :: matrix). by constructor. }
    destruct Hrows as [matrix Hrows]. exists matrix. split; [|done].
    unfold get_feature_matrix.
    rewrite (comprehension_Forall2 _ ids matrix).
    + simpl. apply (np_stack_same_shape matrix shape).
      * intros ->. apply Forall2_nil_inv_r in Hrows. done.
      * clear Hne Hids. induction Hrows as [|???? [_ ?]]; by constructor.
    + eapply Forall2_impl; [exact Hrows|]. by intros ?? [? _].
  - reflexivity.
  - intros ids Hids Hnot.
    assert (Hrows : exists matrix,
      Forall2 (fun id row => feature_vector (features self) id view = Ok row)
        ids matrix).
    { clear Hnot. induction Hids as [|id ids [shape Hid] _ [matrix IH]].
      - by exists [].
      - apply has_view_feature_vector in Hid as (row & Hrow & _).
        exists (row :: matrix). by constructor. }
    destruct Hrows as [matrix Hrows].
    unfold get_feature_matrix.
    rewrite (comprehension_Forall2 _ ids matrix Hrows). simpl.
    destruct matrix as [|row rest].
    + apply Forall2_nil_inv_r in Hrows as ->.
      destruct Hnot. exists 0. constructor.
    + simpl. destruct (forallb _ rest) eqn:Hall; [|done].
      destruct Hnot. exists (length row).
      apply (has_view_of_rows _ _ _ (row :: rest)); [done|].
      constructor; [done|]. apply Forall_forall. intros row' Hin.
      rewrite forallb_forall in Hall. apply Nat.eqb_eq, Hall.
      by apply list_elem_of_In.
Qed.

End FeatureMatrixFacts.

(** With no identifier, nothing is missing, and yet no matrix comes back:
    [np.stack] refuses the empty list. *)
Lemma get_feature_matrix_no_identifiers :
  Forall (has_view example_feature_map "viewA" 2) []
  ∧ get_feature_matrix example_features "viewA" []
    = Raise (ValueError "need at least one array to stack")
  ∧ ~ (exists matrix,
         get_feature_matrix example_features "viewA" [] = Ok matrix).
Proof.
  split_and!; [by constructor|reflexivity|].
  intros [matrix Hm]. discriminate Hm.
Qed.

Lemma get_feature_matrix_outcomes_witness :
  (["a"; "c"] ≠ []
   ∧ Forall (has_view example_feature_map "viewA" 2) ["a"; "c"]
   ∧ exists matrix,
       get_feature_matrix example_features "viewA" ["a"; "c"] = Ok matrix
       ∧ Forall2 (fun id row =>
                    feature_vector example_feature_map id "viewA" = Ok row
                    ∧ length row = 2) ["a"; "c"] matrix)
  ∧ (Forall (fun id => exists shape,
                 has_view (features example_ragged) "viewA" shape id)
       ["a"; "b"]
     ∧ ~ (exists shape,
            Forall (has_view (features example_ragged) "viewA" shape)
              ["a"; "b"])
     ∧ get_feature_matrix example_ragged "viewA" ["a"; "b"]
       = Raise (ValueError "all input arrays must have the same shape")).
Proof.
  assert (Hids : Forall (has_view example_feature_map "viewA" 2) ["a"; "c"]).
  { repeat constructor.
    - by exists [("viewA", [1; 2]%Z); ("viewB", [3; 4; 5]%Z)], [1; 2]%Z.
    - by exists [("viewA", [11; 12]%Z)], [11; 12]%Z. }
  assert (Hsome : Forall (fun id => exists shape,
                            has_view (features example_ragged) "viewA" shape
                              id) ["a"; "b"]).
  { repeat constructor.
    - exists 2. by exists [("viewA", [1; 2]%Z)], [1; 2]%Z.
    - exists 3. by exists [("viewA", [3; 4; 5]%Z)], [3; 4; 5]%Z. }
  assert (Hnone : ~ (exists shape,
                       Forall (has_view (features example_ragged) "viewA"
                                 shape) ["a"; "b"])).
  { intros [shape Hall].
    apply Forall_cons in Hall as [(va & xa & Ha & Hxa & Hla) Hall].
    apply Forall_cons in Hall as [(vb & xb & Hb & Hxb & Hlb) _].
    simpl in Ha, Hb. injection Ha as <-. injection Hb as <-.
    simpl in Hxa, Hxb. injection Hxa as <-. injection Hxb as <-.
    simpl in Hla, Hlb. lia. }
  split.
  - split; [done|]. split; [exact Hids|].
    apply (proj1 (proj2 (proj2 (get_feature_matrix_outcomes example_features
                                  "viewA")))
             ["a"; "c"] 2); [done|exact Hids].
  - split; [exact Hsome|]. split; [exact Hnone|].
    exact (proj2 (proj2 (proj2 (proj2 (get_feature_matrix_outcomes
                                         example_ragged "viewA"))))
             ["a"; "b"] Hsome Hnone).
Defined.

Lemma FeatureDataset_first_entity_witness :
  FeatureDataset_init example_feature_map = Ok example_features
  ∧ example_feature_map ≠ []
  ∧ 1 ≤ length (get_ids example_features)
  ∧ get_view_names example_features = Ok (view_names example_features).
Proof.
  assert (Hinit : FeatureDataset_init example_feature_map
                  = Ok example_features) by reflexivity.
  split; [exact Hinit|].
  exact (proj1 (proj2 FeatureDataset_first_entity)
           example_feature_map example_features Hinit).
Defined.

(** ** Dictionaries as ordered association lists *)

Section DictFacts.

Context {V : Type}.

Implicit Types (d : dict V) (k : string) (v : V).

Lemma keys_app d1 d2 : keys (d1 ++ d2) = keys d1 ++ keys d2.
Proof. unfold keys. apply map_app. Qed.

Lemma get_app_notin d1 d2 k : k ∉ keys d1 -> get (d1 ++ d2) k = get d2 k.
Proof.
  induction d1 as [|[k' v'] d1 IH]; simpl; [done|].
  intros Hk. apply not_elem_of_cons in Hk as [Hne Hk].
  destruct (String.eqb_spec k' k) as [->|_]; [done|]. by apply IH.
Qed.

Lemma setitem_app_notin d1 d2 k v :
  k ∉ keys d1 -> setitem (d1 ++ d2) k v = d1 ++ setitem d2 k v.
Proof.
  induction d1 as [|[k' v'] d1 IH]; simpl; [done|].
  intros Hk. apply not_elem_of_cons in Hk as [Hne Hk].
  destruct (String.eqb_spec k' k) as [->|_]; [done|]. by rewrite IH.
Qed.

Lemma get_setitem_eq d k v : get (setitem d k v) k = Some v.
Proof.
  induction d as [|[k' v'] d IH]; simpl.
  - by rewrite String.eqb_refl.
  - destruct (String.eqb_spec k' k) as [->|Hne]; simpl.
    + by rewrite String.eqb_refl.
    + by destruct (String.eqb_spec k' k).
Qed.

Lemma get_setitem_ne d k k' v : k ≠ k' -> get (setitem d k v) k' = get d k'.
Proof.
  intros Hne. induction d as [|[k0 v0] d IH]; simpl.
  - by destruct (String.eqb_spec k k').
  - destruct (String.eqb_spec k0 k) as [->|Hk0]; simpl.
    + by destruct (String.eqb_spec k k').
    + by rewrite IH.
Qed.

Lemma get_fmap_values {W : Type} (f : V -> W) d k :
  get (map (fun '(k', v) => (k', f v)) d) k = f <$> get d k.
Proof.
  induction d as [|[k' v'] d IH]; simpl; [done|].
  by destruct (String.eqb k' k).
Qed.

Lemma keys_fmap_values {W : Type} (f : V -> W) d :
  keys (map (fun '(k', v) => (k', f v)) d) = keys d.
Proof.
  unfold keys. rewrite map_map. apply map_ext. by intros [k' v'].
Qed.


Lemma get_elem_of d k v : NoDup (keys d) -> (k, v) ∈ d -> get d k = Some v.
Proof.
  induction d as [|[k0 v0] d IH]; intros Hnd Hin.
  - by apply elem_of_nil in Hin.
  - change (keys ((k0, v0) :: d)) with (k0 :: keys d) in Hnd.
    apply NoDup_cons in Hnd as [Hk0 Hnd].
    apply elem_of_cons in Hin as [Heq|Hin].
    + injection Heq as -> ->. simpl. by rewrite String.eqb_refl.
    + simpl. destruct (String.eqb k0 k) eqn:Hk; [|by apply IH].
      apply String.eqb_eq in Hk as ->. destruct Hk0.
      unfold keys. apply list_elem_of_fmap. by exists (k, v).
Qed.

End DictFacts.

Lemma for_each_cons {S A : Type} (body : A -> S -> result unit * S) (x : A)
  (xs : list A) (s : S) :
  for_each body (x :: xs) s
  = match body x s with
    | (Ok _, s') => for_each body xs s'
    | (Raise e, s') => (Raise e, s')
    end.
Proof. reflexivity. Qed.

(** ** The loops behind line 149 *)

Section RandomizeBranches.

Context {scalar rng : Type} `{Numpy scalar rng}.

Implicit Types (features : feature_map scalar) (view id : string) (g : rng).

Lemma zeroing_step_head view id (views : dict (list scalar))
  (x : list scalar) (done rest : feature_map scalar) g :
  id ∉ keys done -> get views view = Some x ->
  zeroing_step view id (done ++ (id, views) :: rest, g)
  = (Ok tt,
     (done ++ (id, setitem views view (np_zeros (length x))) :: rest, g)).
Proof.
  intros Hid Hx. unfold zeroing_step, feature_vector, store_vector, getitem.
  rewrite (get_app_notin done _ id Hid), get_head. simpl.
  rewrite Hx. simpl.
  rewrite (setitem_app_notin done _ id _ Hid). simpl.
  by rewrite String.eqb_refl.
Qed.

Lemma zeroing_loop view (done rest : feature_map scalar) g :
  NoDup (keys (done ++ rest)) ->
  Forall (fun entity => is_Some (get entity.2 view)) rest ->
  for_each (zeroing_step view) (keys rest) (done ++ rest, g)
  = (Ok tt,
     (done ++ map (fun '(id, views) => (id, zeroed view views)) rest, g)).
Proof.
  revert done. induction rest as [|[id views] rest IH]; intros done Hnd Hall.
  - done.
  - apply Forall_cons in Hall as [[x Hx] Hall]. simpl in Hx.
    assert (Hid : id ∉ keys done).
    { rewrite keys_app in Hnd. apply NoDup_app in Hnd as (_ & Hdisj & _).
      intros Hin. apply (Hdisj id Hin). simpl. apply list_elem_of_here. }
    change (keys ((id, views) :: rest)) with (id :: keys rest).
    rewrite for_each_cons, (zeroing_step_head view id views x) by done.
    specialize (IH (done ++ [(id, setitem views view (np_zeros (length x)))])).
    rewrite <- !app_assoc in IH. simpl in IH. rewrite IH.
    + simpl. unfold zeroed at 2. by rewrite Hx.
    + rewrite keys_app in Hnd |- *. exact Hnd.
    + done.
Qed.

(** Lines 177-182, run from a frame in which [views] is bound to the one
    targeted view: when the identifiers are distinct and every entity has the
    view, the loop ends normally, every entity's vector for the view is the
    zero vector of the old shape, every other view of every entity is what it
    was, and the generator is not used. *)
Theorem zeroing_branch_zeroes features (views_to_randomize : str_or_list)
  view g :
  NoDup (keys features) ->
  Forall (fun entity => is_Some (get entity.2 view)) features ->
  exists features',
    randomize_features_modes features views_to_randomize [view] "zeroing" g
    = (Ok tt, (features', g))
    ∧ keys features' = keys features
    ∧ forall id (views : dict (list scalar)),
        get features id = Some views ->
        exists views',
          get features' id = Some views'
          ∧ (forall x, get views view = Some x ->
                       get views' view = Some (replicate (length x) np_zero))
          ∧ (forall view', view' ≠ view -> get views' view' = get views view').
Proof.
  intros Hnd Hall.
  exists (map (fun '(id, views) => (id, zeroed view views)) features).
  split_and!.
  - pose proof (zeroing_loop view [] features g Hnd Hall) as Hloop.
    change (randomize_features_modes features views_to_randomize [view]
              "zeroing" g)
      with (match for_each (zeroing_step view) (keys features)
                    ([] ++ features, g) with
            | (Ok _, s') => (Ok tt, s')
            | (Raise e, s') => (Raise e, s')
            end).
    by rewrite Hloop.
  - apply keys_fmap_values.
  - intros id views Hid. exists (zeroed view views).
    rewrite get_fmap_values, Hid. split_and!; [done| |].
    + intros x Hx. unfold zeroed. rewrite Hx. apply get_setitem_eq.
    + intros view' Hne. unfold zeroed.
      destruct (get views view); [|done]. by apply get_setitem_ne.
Qed.

End RandomizeBranches.

Lemma zeroing_branch_zeroes_witness :
  NoDup (keys example_feature_map)
  ∧ Forall (fun entity => is_Some (get entity.2 "viewA")) example_feature_map
  ∧ exists features',
      randomize_features_modes example_feature_map (StrList ["viewA"])
        ["viewA"] "zeroing" 0
      = (Ok tt, (features', 0))
      ∧ keys features' = keys example_feature_map
      ∧ forall id (views : dict (list Z)),
          get example_feature_map id = Some views ->
          exists views',
            get features' id = Some views'
            ∧ (forall x, get views "viewA" = Some x ->
                         get views' "viewA"
                         = Some (replicate (length x) np_zero))
            ∧ (forall view', view' ≠ "viewA" ->
                             get views' view' = get views view').
Proof.
  assert (Hnd : NoDup (keys example_feature_map)).
  { apply (bool_decide_unpack _). by vm_compute. }
  assert (Hall : Forall (fun entity => is_Some (get entity.2 "viewA"))
                   example_feature_map).
  { repeat constructor; by eexists. }
  split; [exact Hnd|]. split; [exact Hall|].
  exact (zeroing_branch_zeroes example_feature_map (StrList ["viewA"])
           "viewA" 0 Hnd Hall).
Defined.

(** The same loops on the example: [zeroing] zeroes [viewA] alone; the
    [permutation] branch draws one permutation for every entity (the counter
    of the generator ends at 3) and pairs view [j] with its [j]-th member. *)
Example zeroing_branch_example :
  randomize_features_modes example_feature_map (StrList ["viewA"]) ["viewA"]
    "zeroing" 0
  = (Ok tt,
     ([("a", [("viewA", [0; 0]%Z); ("viewB", [3; 4; 5]%Z)]);
       ("b", [("viewA", [0; 0]%Z); ("viewB", [8; 9; 10]%Z)]);
       ("c", [("viewA", [0; 0]%Z)])],
      0)).
Proof. reflexivity. Qed.

Example permutation_branch_example :
  randomize_features_modes example_feature_map (StrList ["viewA"]) ["viewA"]
    "permutation" 0
  = (Ok tt,
     ([("a", [("viewA", [6; 7]%Z); ("viewB", [3; 4; 5]%Z)]);
       ("b", [("viewA", [11; 12]%Z); ("viewB", [8; 9; 10]%Z)]);
       ("c", [("viewA", [1; 2]%Z)])],
      3)).
Proof. reflexivity. Qed.

(** ** Further facts *)

(** In mode ["LPO"] the folds returned are the folds cached in
    [cv_splits]; the other attributes are left as they were. *)
Theorem split_dataset_LPO_caches (shuffle : seeded_shuffle) {scalar : Type}
  (ds : DrugResponseDataset scalar) (k : nat) (sv : bool) (r : Q) (seed : Z) :
  exists (folds : list Fold) (ds' : DrugResponseDataset scalar),
    split_dataset shuffle ds k "LPO" sv r seed = (Ok folds, ds')
    ∧ cv_splits ds' = Some folds
    ∧ target_type ds' = target_type ds
    ∧ response ds' = response ds
    ∧ cell_line_ids ds' = cell_line_ids ds
    ∧ drug_ids ds' = drug_ids ds
    ∧ predictions ds' = predictions ds.
Proof.
  rewrite split_dataset_LPO. simpl. do 2 eexists.
  split; [reflexivity|]. by split_and!.
Qed.

(** Four entities with a three-component [fingerprint]: the matrix has one
    row per identifier asked for, in the order asked. *)
Theorem get_feature_matrix_fingerprints :
  get_feature_matrix example_fingerprints "fingerprint" ["a"; "b"; "c"; "d"]
  = Ok [[1; 0; 1]; [0; 1; 1]; [1; 1; 0]; [0; 0; 1]]%Z
  ∧ get_feature_matrix example_fingerprints "fingerprint" ["d"; "a"; "d"]
    = Ok [[0; 0; 1]; [1; 0; 1]; [0; 0; 1]]%Z.
Proof. split; reflexivity. Qed.

(** ** [split_dataset]: when it returns *)

(** X1: [split_dataset] returns only in mode ["LPO"], and then the folds
    it returns are the folds it caches, the other attributes being left as
    they were; with any other mode string it raises and the dataset, a
    formerly cached [cv_splits] included, is what it was. *)
Theorem split_dataset_returns_only_LPO (shuffle : seeded_shuffle)
  {scalar : Type} (ds : DrugResponseDataset scalar) (k : nat) (mode : string)
  (sv : bool) (r : Q) (seed : Z) :
  (mode = "LPO"
   ∧ exists folds : list Fold,
       split_dataset shuffle ds k mode sv r seed
       = (Ok folds,
          {| target_type := target_type ds;
             response := response ds;
             cell_line_ids := cell_line_ids ds;
             drug_ids := drug_ids ds;
             predictions := predictions ds;
             cv_splits := Some folds |}))
  ∨ (mode ≠ "LPO"
     ∧ exists e : exn, split_dataset shuffle ds k mode sv r seed = (Raise e, ds)).
Proof.
  unfold split_dataset, split_dataset_branches.
  destruct (String.eqb_spec mode "LPO") as [->|Hlpo].
  - left. split; [done|]. by eexists.
  - right. split; [done|].
    destruct (String.eqb mode "LCO"); [by eexists|].
    destruct (String.eqb mode "LDO"); by eexists.
Qed.

(** ** [get_feature_matrix]: what a returned matrix is, and the identifiers
    of the dataset itself *)

Lemma comprehension_Ok_inv {A B : Type} (f : A -> result B) (xs : list A)
  (ys : list B) :
  comprehension f xs = Ok ys -> Forall2 (fun x y => f x = Ok y) xs ys.
Proof.
  revert ys. induction xs as [|x xs IH]; intros ys; simpl.
  - intros [= <-]. constructor.
  - destruct (f x) as [y|e] eqn:Hx; simpl; [|done].
    destruct (comprehension f xs) as [ys'|e]; simpl; [|done].
    intros [= <-]. constructor; [done|]. by apply IH.
Qed.

Lemma np_stack_Ok_inv {scalar : Type} (rows matrix : list (list scalar)) :
  np_stack rows = Ok matrix ->
  matrix = rows ∧ rows ≠ []
  ∧ exists shape, Forall (fun row => length row = shape) rows.
Proof.
  destruct rows as [|row rows]; simpl; [done|].
  destruct (forallb _ rows) eqn:Hall; [|done].
  intros [= <-]. split_and!; [done..|].
  exists (length row). constructor; [done|].
  apply Forall_forall. intros row' Hin.
  rewrite forallb_forall in Hall. apply Nat.eqb_eq, Hall.
  by apply list_elem_of_In.
Qed.

Section FeatureMatrixMore.

Context {scalar : Type}.

Implicit Types (self : FeatureDataset scalar) (view id : string).
Implicit Types (features : feature_map scalar) (ids : list string).

(** X2: whenever [get_feature_matrix] returns, there was at least one
    identifier, the matrix has one row per identifier, in the order given,
    each the vector stored for that identifier and view, and all rows have
    one length. *)
Theorem get_feature_matrix_returns self view ids
  (matrix : list (list scalar)) :
  get_feature_matrix self view ids = Ok matrix ->
  ids ≠ []
  ∧ length matrix = length ids
  ∧ Forall2 (fun id row => feature_vector (features self) id view = Ok row)
      ids matrix
  ∧ exists shape, Forall (fun row => length row = shape) matrix.
Proof.
  unfold get_feature_matrix. intros Hm.
  destruct (comprehension _ ids) as [rows|e] eqn:Hrows; simpl in Hm; [|done].
  apply np_stack_Ok_inv in Hm as (-> & Hne & Hshape).
  apply comprehension_Ok_inv in Hrows.
  split_and!.
  - intros ->. by apply Forall2_nil_inv_l in Hrows.
  - symmetry. by eapply Forall2_length.
  - done.
  - done.
Qed.

Lemma get_own features (rest : feature_map scalar) id
  (views : dict (list scalar)) :
  id ∉ keys features -> get (features ++ (id, views) :: rest) id = Some views.
Proof. intros Hid. by rewrite (get_app_notin features _ id Hid), get_head. Qed.

Lemma NoDup_keys_snoc (seen rest : feature_map scalar) id
  (views : dict (list scalar)) :
  NoDup (keys (seen ++ (id, views) :: rest)) ->
  (id ∉ keys seen) ∧ NoDup (keys ((seen ++ [(id, views)]) ++ rest)).
Proof.
  intros Hnd. split.
  - rewrite keys_app in Hnd. apply NoDup_app in Hnd as (_ & Hdisj & _).
    intros Hin. apply (Hdisj id Hin). simpl. apply list_elem_of_here.
  - by rewrite <- app_assoc.
Qed.

Lemma own_rows (seen rest : feature_map scalar) view
  (matrix : list (list scalar)) :
  NoDup (keys (seen ++ rest)) ->
  Forall2 (fun entity row => get entity.2 view = Some row) rest matrix ->
  Forall2 (fun id row => feature_vector (seen ++ rest) id view = Ok row)
    (keys rest) matrix.
Proof.
  intros Hnd Hrows. revert seen Hnd.
  induction Hrows as [|[id views] row rest matrix Hrow _ IH]; intros seen Hnd.
  - constructor.
  - apply NoDup_keys_snoc in Hnd as [Hid Hnd]. simpl. constructor.
    + unfold feature_vector, getitem. rewrite (get_own seen rest id views Hid).
      simpl. simpl in Hrow. by rewrite Hrow.
    + specialize (IH _ Hnd). by rewrite <- app_assoc in IH.
Qed.

Lemma first_missing_view (seen rest : feature_map scalar) view :
  NoDup (keys (seen ++ rest)) ->
  (exists entity, entity ∈ rest ∧ get entity.2 view = None) ->
  comprehension (fun id => feature_vector (seen ++ rest) id view) (keys rest)
  = Raise (KeyError view).
Proof.
  revert seen. induction rest as [|[id views] rest IH]; intros seen Hnd Hex.
  - destruct Hex as (entity & Hin & _). by apply elem_of_nil in Hin.
  - apply NoDup_keys_snoc in Hnd as [Hid Hnd]. simpl.
    unfold feature_vector at 1, getitem.
    rewrite (get_own seen rest id views Hid). simpl.
    destruct (get views view) as [x|] eqn:Hx; simpl; [|done].
    specialize (IH _ Hnd). rewrite <- app_assoc in IH. simpl in IH.
    rewrite IH; [done|].
    destruct Hex as (entity & Hin & Hnone).
    apply elem_of_cons in Hin as [->|Hin]; [|by exists entity].
    simpl in Hnone. congruence.
Qed.

Lemma FeatureDataset_init_Ok_inv (mapping : feature_map scalar) self :
  FeatureDataset_init mapping = Ok self ->
  mapping ≠ [] ∧ features self = mapping ∧ identifier self = keys mapping.
Proof.
  destruct mapping as [|[id views] others]; [done|].
  unfold FeatureDataset_init. rewrite view_names_of_cons. simpl.
  by intros [= <-].
Qed.

(** X3: the constructor accepts entities with unequal view sets, and the
    gap shows at matrix assembly: when the identifiers are distinct and some
    entity lacks [view], [get_feature_matrix] over the dataset's own
    [get_ids()] raises the [KeyError] of the view. *)
Theorem get_feature_matrix_heterogeneous features self view :
  NoDup (keys features) ->
  FeatureDataset_init features = Ok self ->
  (exists entity, entity ∈ features ∧ get entity.2 view = None) ->
  get_feature_matrix self view (get_ids self) = Raise (KeyError view).
Proof.
  intros Hnd Hinit Hex.
  apply FeatureDataset_init_Ok_inv in Hinit as (_ & Hf & _).
  unfold get_feature_matrix, get_ids, ids_of. rewrite Hf.
  pose proof (first_missing_view [] features view Hnd Hex) as Hraise.
  simpl in Hraise. by rewrite Hraise.
Qed.

(** X4: for a constructed dataset with distinct identifiers in which every
    entity has a vector of one common length for [view], the matrix over the
    dataset's own [get_ids()] exists and its rows are the entities' vectors
    in the order of the mapping. *)
Theorem get_feature_matrix_all_ids features self view (shape : nat) :
  NoDup (keys features) ->
  FeatureDataset_init features = Ok self ->
  Forall (fun entity => exists x, get entity.2 view = Some x
                                  ∧ length x = shape) features ->
  exists matrix,
    get_feature_matrix self view (get_ids self) = Ok matrix
    ∧ Forall2 (fun entity row => get entity.2 view = Some row
                                 ∧ length row = shape) features matrix.
Proof.
  intros Hnd Hinit Hall.
  apply FeatureDataset_init_Ok_inv in Hinit as (Hne & Hf & _).
  assert (Hrows : exists matrix,
    Forall2 (fun entity row => get entity.2 view = Some row
                               ∧ length row = shape) features matrix).
  { clear Hnd Hne Hf. induction Hall as [|entity ? (x & Hx & Hlen) _ [m IH]].
    - by exists [].
    - exists (x :: m). by constructor. }
  destruct Hrows as [matrix Hrows]. exists matrix. split; [|done].
  unfold get_feature_matrix, get_ids, ids_of. rewrite Hf.
  rewrite (comprehension_Forall2 _ (keys features) matrix).
  - simpl. apply (np_stack_same_shape matrix shape).
    + intros ->. apply Forall2_nil_inv_r in Hrows. done.
    + clear Hnd Hne Hf Hall.
      induction Hrows as [|???? [_ ?]]; by constructor.
  - apply (own_rows [] features view matrix Hnd).
    eapply Forall2_impl; [exact Hrows|]. by intros ?? [? _].
Qed.

End FeatureMatrixMore.

Lemma get_feature_matrix_returns_witness :
  get_feature_matrix example_features "viewA" ["a"; "c"]
  = Ok [[1; 2]; [11; 12]]%Z
  ∧ ["a"; "c"] ≠ []
  ∧ length [[1; 2]; [11; 12]]%Z = length ["a"; "c"]
  ∧ Forall2 (fun id row =>
               feature_vector (features example_features) id "viewA" = Ok row)
      ["a"; "c"] [[1; 2]; [11; 12]]%Z
  ∧ exists shape, Forall (fun row => length row = shape) [[1; 2]; [11; 12]]%Z.
Proof.
  assert (Hm : get_feature_matrix example_features "viewA" ["a"; "c"]
               = Ok [[1; 2]; [11; 12]]%Z) by reflexivity.
  split; [exact Hm|].
  exact (get_feature_matrix_returns example_features "viewA" ["a"; "c"]
           [[1; 2]; [11; 12]]%Z Hm).
Defined.

Lemma example_heterogeneous_init :
  FeatureDataset_init example_heterogeneous
  = Ok {| features := example_heterogeneous;
          view_names := ["viewA"; "viewB"];
          identifier := ["a"; "b"; "c"] |}.
Proof. reflexivity. Qed.

Lemma get_feature_matrix_heterogeneous_witness :
  NoDup (keys example_heterogeneous)
  ∧ FeatureDataset_init example_heterogeneous
    = Ok {| features := example_heterogeneous;
            view_names := ["viewA"; "viewB"];
            identifier := ["a"; "b"; "c"] |}
  ∧ (exists entity, entity ∈ example_heterogeneous
                    ∧ get entity.2 "viewB" = None)
  ∧ get_feature_matrix
      {| features := example_heterogeneous;
         view_names := ["viewA"; "viewB"];
         identifier := ["a"; "b"; "c"] |}
      "viewB" ["a"; "b"; "c"]
    = Raise (KeyError "viewB").
Proof.
  assert (Hnd : NoDup (keys example_heterogeneous)).
  { apply (bool_decide_unpack _). by vm_compute. }
  assert (Hex : exists entity, entity ∈ example_heterogeneous
                               ∧ get entity.2 "viewB" = None).
  { exists ("b", [("viewA", [6; 7]%Z)]). split; [|done].
    apply list_elem_of_further, list_elem_of_here. }
  split; [exact Hnd|]. split; [exact example_heterogeneous_init|].
  split; [exact Hex|].
  exact (get_feature_matrix_heterogeneous example_heterogeneous _ "viewB"
           Hnd example_heterogeneous_init Hex).
Defined.

Lemma get_feature_matrix_all_ids_witness :
  NoDup (keys example_heterogeneous)
  ∧ Forall (fun entity => exists x, get entity.2 "viewA" = Some x
                                    ∧ length x = 2) example_heterogeneous
  ∧ exists matrix,
      get_feature_matrix
        {| features := example_heterogeneous;
           view_names := ["viewA"; "viewB"];
           identifier := ["a"; "b"; "c"] |}
        "viewA" ["a"; "b"; "c"]
      = Ok matrix
      ∧ Forall2 (fun entity row => get entity.2 "viewA" = Some row
                                   ∧ length row = 2)
          example_heterogeneous matrix.
Proof.
  assert (Hnd : NoDup (keys example_heterogeneous)).
  { apply (bool_decide_unpack _). by vm_compute. }
  assert (Hall : Forall (fun entity => exists x, get entity.2 "viewA" = Some x
                                                 ∧ length x = 2)
                   example_heterogeneous).
  { repeat constructor; by eexists. }
  split; [exact Hnd|]. split; [exact Hall|].
  exact (get_feature_matrix_all_ids example_heterogeneous _ "viewA" 2
           Hnd example_heterogeneous_init Hall).
Defined.

(** ** The [zeroing] and [gaussian] loops, in general *)


Section LoopFacts.

Context {scalar rng : Type} `{Numpy scalar rng}.

Implicit Types (view id : string) (g : rng) (vs : dict (list scalar)).

Lemma get_zeroed view view' vs :
  get (zeroed view vs) view' = zero_if_targeted [view] view' <$> get vs view'.
Proof.
  unfold zeroed, zero_if_targeted.
  destruct (decide (view = view')) as [<-|Hne].
  - rewrite bool_decide_eq_true_2 by apply list_elem_of_here.
    destruct (get vs view) as [x|] eqn:Hx; simpl.
    + by rewrite get_setitem_eq.
    + by rewrite Hx.
  - rewrite bool_decide_eq_false_2
      by (rewrite list_elem_of_singleton; congruence).
    destruct (get vs view) as [x|] eqn:Hx.
    + rewrite get_setitem_ne by done. by destruct (get vs view').
    + by destruct (get vs view').
Qed.

Lemma get_zeroed_views (views : list string) view' vs :
  get (foldl (fun acc view => zeroed view acc) vs views) view'
  = zero_if_targeted views view' <$> get vs view'.
Proof.
  revert vs. induction views as [|view views IH]; intros vs; simpl.
  - unfold zero_if_targeted. rewrite bool_decide_eq_false_2 by apply not_elem_of_nil.
    by destruct (get vs view').
  - rewrite IH, get_zeroed. destruct (get vs view') as [x|]; simpl; [|done].
    f_equal. unfold zero_if_targeted.
    destruct (decide (view' = view)) as [->|Hne].
    + rewrite (bool_decide_eq_true_2 (view ∈ [view]))
        by apply list_elem_of_here.
      rewrite (bool_decide_eq_true_2 (view ∈ view :: views))
        by apply list_elem_of_here.
      rewrite length_replicate. by destruct (bool_decide (view ∈ views)).
    + rewrite (bool_decide_eq_false_2 (view' ∈ [view]))
        by (rewrite list_elem_of_singleton; congruence).
      replace (bool_decide (view' ∈ view :: views))
        with (bool_decide (view' ∈ views)); [done|].
      apply bool_decide_ext. rewrite elem_of_cons.
      split; [by right|by intros [?|?]].
Qed.

Lemma zeroed_all_entities (views : list string)
  (features : feature_map scalar) :
  zeroed_all views features
  = map (fun '(id, vs) =>
           (id, foldl (fun acc view => zeroed view acc) vs views)) features.
Proof.
  unfold zeroed_all. revert features.
  induction views as [|view views IH]; intros features; simpl.
  - induction features as [|[id vs] features IHf]; simpl; [done|].
    by rewrite <- IHf.
  - rewrite IH, map_map. apply map_ext. by intros [id vs].
Qed.

Lemma zeroing_views_loop (views : list string)
  (features : feature_map scalar) g :
  NoDup (keys features) ->
  Forall (fun view => Forall (fun entity => is_Some (get entity.2 view))
                        features) views ->
  for_each (fun view s => for_each (zeroing_step view) (ids_of s.1) s)
    views (features, g)
  = (Ok tt, (zeroed_all views features, g)).
Proof.
  revert features.
  induction views as [|view views IH]; intros features Hnd Hall; [done|].
  apply Forall_cons in Hall as [Hview Hall].
  rewrite for_each_cons. cbv beta.
  change (ids_of (features, g).1) with (keys features).
  change (for_each (zeroing_step view) (keys features) (features, g))
    with (for_each (zeroing_step view) (keys features) ([] ++ features, g)).
  rewrite (zeroing_loop view [] features g Hnd Hview). simpl.
  rewrite IH; [done| |].
  - by rewrite keys_fmap_values.
  - eapply Forall_impl; [exact Hall|]. intros view' Hview'.
    apply Forall_fmap. eapply Forall_impl; [exact Hview'|].
    intros [id vs] Hvs. simpl in *. rewrite get_zeroed.
    by apply fmap_is_Some.
Qed.

(** X5: the [zeroing] loops (lines 177-182), run from a frame in which
    [views] is bound to a list: when the identifiers are distinct and every
    entity has every listed view, the loops end normally without using the
    generator, the identifiers keep their order, and for every entity each
    listed view holds the zero vector of its old length while every other
    view, present or absent, is as before. *)
Theorem zeroing_branch_views (features : feature_map scalar)
  (views_to_randomize : str_or_list) (views : list string) g :
  NoDup (keys features) ->
  Forall (fun view => Forall (fun entity => is_Some (get entity.2 view))
                        features) views ->
  exists features',
    randomize_features_modes features views_to_randomize views "zeroing" g
    = (Ok tt, (features', g))
    ∧ keys features' = keys features
    ∧ forall id vs,
        get features id = Some vs ->
        exists vs',
          get features' id = Some vs'
          ∧ forall view,
              get vs' view
              = (fun x => if bool_decide (view ∈ views)
                          then replicate (length x) np_zero else x)
                <$> get vs view.
Proof.
  intros Hnd Hall. exists (zeroed_all views features). split_and!.
  - change (randomize_features_modes features views_to_randomize views
              "zeroing" g)
      with (for_each (fun view s =>
                        for_each (zeroing_step view) (ids_of s.1) s)
              views (features, g)).
    by apply zeroing_views_loop.
  - rewrite zeroed_all_entities. apply keys_fmap_values.
  - intros id vs Hid. rewrite zeroed_all_entities.
    exists (foldl (fun acc view => zeroed view acc) vs views).
    rewrite get_fmap_values, Hid. split; [done|].
    intros view. apply get_zeroed_views.
Qed.

(** X7: zeroing is idempotent: under the conditions of X5, a second run
    of the loops over the mapping the first run leaves ends normally again
    and every vector of every entity is what the first run made it. *)
Theorem zeroing_branch_twice (features : feature_map scalar)
  (views_to_randomize : str_or_list) (views : list string) g :
  NoDup (keys features) ->
  Forall (fun view => Forall (fun entity => is_Some (get entity.2 view))
                        features) views ->
  exists features' features'',
    randomize_features_modes features views_to_randomize views "zeroing" g
    = (Ok tt, (features', g))
    ∧ randomize_features_modes features' views_to_randomize views "zeroing" g
      = (Ok tt, (features'', g))
    ∧ keys features'' = keys features'
    ∧ forall id view,
        (get features'' id ≫= fun vs => get vs view)
        = (get features' id ≫= fun vs => get vs view).
Proof.
  intros Hnd Hall.
  set (once := zeroed_all views features).
  assert (Hkeys : keys once = keys features).
  { unfold once. rewrite zeroed_all_entities. apply keys_fmap_values. }
  assert (Hall' : Forall (fun view =>
                            Forall (fun entity => is_Some (get entity.2 view))
                              once) views).
  { eapply Forall_impl; [exact Hall|]. intros view Hview.
    unfold once. rewrite zeroed_all_entities. apply Forall_fmap.
    eapply Forall_impl; [exact Hview|]. intros [id vs] Hvs. simpl in *.
    rewrite get_zeroed_views. by apply fmap_is_Some. }
  exists once, (zeroed_all views once). split_and!.
  - change (randomize_features_modes features views_to_randomize views
              "zeroing" g)
      with (for_each (fun view s =>
                        for_each (zeroing_step view) (ids_of s.1) s)
              views (features, g)).
    by apply zeroing_views_loop.
  - change (randomize_features_modes once views_to_randomize views
              "zeroing" g)
      with (for_each (fun view s =>
                        for_each (zeroing_step view) (ids_of s.1) s)
              views (once, g)).
    apply zeroing_views_loop; [by rewrite Hkeys|done].
  - rewrite (zeroed_all_entities views once). apply keys_fmap_values.
  - intros id view. rewrite (zeroed_all_entities views once), get_fmap_values.
    destruct (get once id) as [vs'|] eqn:Hvs'; simpl; [|done].
    rewrite get_zeroed_views.
    unfold once in Hvs'. rewrite zeroed_all_entities, get_fmap_values in Hvs'.
    destruct (get features id) as [vs|]; simpl in Hvs'; [|done].
    injection Hvs' as <-. rewrite get_zeroed_views.
    destruct (get vs view) as [x|]; simpl; [|done].
    f_equal. unfold zero_if_targeted.
    destruct (bool_decide (view ∈ views)); [|done].
    by rewrite length_replicate.
Qed.

End LoopFacts.

Lemma zeroing_branch_views_witness :
  NoDup (keys example_feature_map)
  ∧ Forall (fun view => Forall (fun entity => is_Some (get entity.2 view))
                          example_feature_map) ["viewA"]
  ∧ exists features',
      randomize_features_modes example_feature_map (Str "viewA") ["viewA"]
        "zeroing" 0
      = (Ok tt, (features', 0))
      ∧ keys features' = keys example_feature_map
      ∧ forall id vs,
          get example_feature_map id = Some vs ->
          exists vs',
            get features' id = Some vs'
            ∧ forall view,
                get vs' view
                = (fun x => if bool_decide (view ∈ ["viewA"])
                            then replicate (length x) np_zero else x)
                  <$> get vs view.
Proof.
  assert (Hnd : NoDup (keys example_feature_map)).
  { apply (bool_decide_unpack _). by vm_compute. }
  assert (Hall : Forall (fun view =>
                           Forall (fun entity => is_Some (get entity.2 view))
                             example_feature_map) ["viewA"]).
  { repeat constructor; by eexists. }
  split; [exact Hnd|]. split; [exact Hall|].
  exact (zeroing_branch_views example_feature_map (Str "viewA") ["viewA"] 0
           Hnd Hall).
Defined.

Lemma zeroing_branch_twice_witness :
  NoDup (keys example_feature_map)
  ∧ Forall (fun view => Forall (fun entity => is_Some (get entity.2 view))
                          example_feature_map) ["viewA"]
  ∧ exists features' features'',
      randomize_features_modes example_feature_map (Str "viewA") ["viewA"]
        "zeroing" 0
      = (Ok tt, (features', 0))
      ∧ randomize_features_modes features' (Str "viewA") ["viewA"]
          "zeroing" 0
        = (Ok tt, (features'', 0))
      ∧ keys features'' = keys features'
      ∧ forall id view,
          (get features'' id ≫= fun vs => get vs view)
          = (get features' id ≫= fun vs => get vs view).
Proof.
  assert (Hnd : NoDup (keys example_feature_map)).
  { apply (bool_decide_unpack _). by vm_compute. }
  assert (Hall : Forall (fun view =>
                           Forall (fun entity => is_Some (get entity.2 view))
                             example_feature_map) ["viewA"]).
  { repeat constructor; by eexists. }
  split; [exact Hnd|]. split; [exact Hall|].
  exact (zeroing_branch_twice example_feature_map (Str "viewA") ["viewA"] 0
           Hnd Hall).
Defined.

(** ** The in-place loops when inner dictionaries are shared *)

Section InPlaceFacts.

Context {scalar rng : Type} `{Numpy scalar rng}.

Implicit Types (refs visited : feature_refs) (objects : object_store scalar).
Implicit Types (view id : string) (l : loc) (g : rng).
Implicit Types (vs : dict (list scalar)).









Lemma gaussian_step_in_place_has refs view id l objects (x : list scalar) g :
  get refs id = Some l -> get (objects l) view = Some x ->
  gaussian_step_in_place refs view id (objects, g)
  = (Ok tt,
     (write objects l
        (setitem (objects l) view
           (np_random_normal (np_mean x) (np_std x) (length x) g).1),
      (np_random_normal (np_mean x) (np_std x) (length x) g).2)).
Proof.
  intros Hid Hx.
  unfold gaussian_step_in_place, feature_vector_in, store_vector_in, getitem.
  rewrite Hid. simpl. rewrite Hx.
  by destruct (np_random_normal _ _ _ g) as [sample g'].
Qed.

Lemma gaussian_in_place_visited refs view visited objects g :
  Forall (fun entity => get refs entity.1 = Some entity.2) visited ->
  NoDup (visited.*2) ->
  Forall (fun entity => is_Some (get (objects entity.2) view)) visited ->
  exists objects' g',
    for_each (gaussian_step_in_place refs view) (keys visited) (objects, g)
    = (Ok tt, (objects', g'))
    ∧ (forall l, l ∉ visited.*2 -> objects' l = objects l)
    ∧ Forall (fun entity =>
                (forall view', view' ≠ view ->
                               get (objects' entity.2) view'
                               = get (objects entity.2) view')
                ∧ exists (x : list scalar) (g0 : rng),
                    get (objects entity.2) view = Some x
                    ∧ get (objects' entity.2) view
                      = Some (np_random_normal (np_mean x) (np_std x)
                                (length x) g0).1)
        visited.
Proof.
  revert objects g.
  induction visited as [|[id l] visited IH]; intros objects g Hrefs Hnd Hall.
  - exists objects, g. by split_and!.
  - apply Forall_cons in Hrefs as [Hid Hrefs].
    apply Forall_cons in Hall as [[x Hx] Hall]. simpl in Hid, Hx.
    change (((id, l) :: visited).*2) with (l :: visited.*2) in Hnd |- *.
    apply NoDup_cons in Hnd as [Hl Hnd].
    change (keys ((id, l) :: visited)) with (id :: keys visited).
    rewrite for_each_cons,
      (gaussian_step_in_place_has refs view id l objects x g Hid Hx).
    set (sample := (np_random_normal (np_mean x) (np_std x) (length x) g).1).
    set (g1 := (np_random_normal (np_mean x) (np_std x) (length x) g).2).
    assert (Hother : forall l', l' ∈ visited.*2 ->
              write objects l (setitem (objects l) view sample) l'
              = objects l').
    { intros l' Hin. unfold write. destruct (Nat.eqb l' l) eqn:Heq; [|done].
      apply Nat.eqb_eq in Heq as ->. done. }
    assert (Hin2 : forall entity, entity ∈ visited -> entity.2 ∈ visited.*2).
    { intros entity Hin. apply list_elem_of_fmap. by exists entity. }
    destruct (IH (write objects l (setitem (objects l) view sample)) g1
                Hrefs Hnd) as (objects' & g' & Hrun & Hrest & Hdrawn).
    { apply Forall_forall. intros entity Hin.
      rewrite Hother by by apply Hin2.
      by apply (proj1 (Forall_forall _ _) Hall). }
    exists objects', g'. split_and!.
    + exact Hrun.
    + intros l' Hl'. apply not_elem_of_cons in Hl' as [Hne Hl'].
      rewrite (Hrest l' Hl'). unfold write.
      destruct (Nat.eqb l' l) eqn:Heq; [|done].
      by apply Nat.eqb_eq in Heq.
    + constructor.
      * simpl. rewrite (Hrest l Hl). unfold write. rewrite Nat.eqb_refl.
        split.
        -- intros view' Hne. by apply get_setitem_ne.
        -- exists x, g. split; [done|]. apply get_setitem_eq.
      * apply Forall_forall. intros entity Hin.
        destruct (proj1 (Forall_forall _ _) Hdrawn entity Hin)
          as [Hviews (x0 & g0 & Hx0 & Hdraw)].
        rewrite (Hother entity.2 (Hin2 entity Hin)) in Hx0. split.
        -- intros view' Hne. rewrite (Hviews view' Hne).
           by rewrite (Hother entity.2 (Hin2 entity Hin)).
        -- by exists x0, g0.
Qed.

(** X8: the [gaussian] loop (lines 169-176), run from a frame in which
    [views] is bound to one view name, when no two identifiers hold one and
    the same inner dictionary and every inner dictionary has the view: the
    loop ends normally, every other view of every entity is untouched, the
    entity's vector for the view is a draw of [np.random.normal] with the
    mean, the standard deviation and the shape of that entity's own old
    vector, and the inner dictionaries no identifier holds are as before. *)
Theorem gaussian_in_place_resamples refs view objects g :
  NoDup (keys refs) ->
  NoDup (refs.*2) ->
  Forall (fun entity => is_Some (get (objects entity.2) view)) refs ->
  exists objects' g',
    gaussian_in_place refs [view] (objects, g) = (Ok tt, (objects', g'))
    ∧ (forall l, l ∉ refs.*2 -> objects' l = objects l)
    ∧ Forall (fun entity =>
                (forall view', view' ≠ view ->
                               get (objects' entity.2) view'
                               = get (objects entity.2) view')
                ∧ exists (x : list scalar) (g0 : rng),
                    get (objects entity.2) view = Some x
                    ∧ get (objects' entity.2) view
                      = Some (np_random_normal (np_mean x) (np_std x)
                                (length x) g0).1)
        refs.
Proof.
  intros Hkeys Hlocs Hall.
  assert (Hrefs : Forall (fun entity => get refs entity.1 = Some entity.2)
                    refs).
  { apply Forall_forall. intros [id l] Hin. by apply get_elem_of. }
  destruct (gaussian_in_place_visited refs view refs objects g Hrefs Hlocs
              Hall) as (objects' & g' & Hrun & Hrest & Hdrawn).
  exists objects', g'. split_and!; [|done|done].
  unfold gaussian_in_place. by rewrite for_each_cons, Hrun.
Qed.

(** *** Without sharing, the loops on the mapping and on the store agree *)

Lemma get_elem_of_values refs id l : get refs id = Some l -> l ∈ refs.*2.
Proof.
  induction refs as [|[id0 l0] refs IH]; simpl; [done|].
  destruct (String.eqb id0 id).
  - intros [= ->]. apply list_elem_of_here.
  - intros Hid. apply list_elem_of_further. by apply IH.
Qed.

Lemma features_of_write_fresh refs objects l vs :
  l ∉ refs.*2 ->
  features_of refs (write objects l vs) = features_of refs objects.
Proof.
  induction refs as [|[id0 l0] refs IH]; intros Hl; [done|].
  change (((id0, l0) :: refs).*2) with (l0 :: refs.*2) in Hl.
  apply not_elem_of_cons in Hl as [Hne Hl]. simpl. rewrite (IH Hl).
  unfold write. destruct (Nat.eqb l0 l) eqn:Heq; [|done].
  apply Nat.eqb_eq in Heq. congruence.
Qed.

Lemma setitem_features_of refs objects id l vs :
  NoDup (refs.*2) -> get refs id = Some l ->
  setitem (features_of refs objects) id vs
  = features_of refs (write objects l vs).
Proof.
  induction refs as [|[id0 l0] refs IH]; intros Hnd Hid; [done|].
  change (((id0, l0) :: refs).*2) with (l0 :: refs.*2) in Hnd.
  apply NoDup_cons in Hnd as [Hl0 Hnd]. simpl in Hid |- *.
  destruct (String.eqb id0 id) eqn:Hk.
  - injection Hid as ->.
    rewrite (features_of_write_fresh refs objects l vs Hl0).
    unfold write. by rewrite Nat.eqb_refl.
  - rewrite (IH Hnd Hid). f_equal. f_equal. unfold write.
    destruct (Nat.eqb l0 l) eqn:Heq; [|done].
    apply Nat.eqb_eq in Heq as ->. destruct Hl0.
    by apply (get_elem_of_values refs id).
Qed.

Lemma zeroing_step_agrees refs objects view id g :
  NoDup (refs.*2) ->
  zeroing_step view id (features_of refs objects, g)
  = match zeroing_step_in_place refs view id (objects, g) with
    | (outcome, (objects', g')) => (outcome, (features_of refs objects', g'))
    end.
Proof.
  intros Hnd.
  unfold zeroing_step, zeroing_step_in_place, feature_vector,
    feature_vector_in, store_vector, store_vector_in, getitem.
  unfold features_of at 1 2. rewrite get_fmap_values.
  destruct (get refs id) as [l|] eqn:Hid; simpl; [|done].
  destruct (get (objects l) view) as [x|]; simpl; [|done].
  by rewrite <- (setitem_features_of refs objects id l _ Hnd Hid).
Qed.

Lemma gaussian_step_agrees refs objects view id g :
  NoDup (refs.*2) ->
  gaussian_step view id (features_of refs objects, g)
  = match gaussian_step_in_place refs view id (objects, g) with
    | (outcome, (objects', g')) => (outcome, (features_of refs objects', g'))
    end.
Proof.
  intros Hnd.
  unfold gaussian_step, gaussian_step_in_place, feature_vector,
    feature_vector_in, store_vector, store_vector_in, getitem.
  unfold features_of at 1 2. rewrite get_fmap_values.
  destruct (get refs id) as [l|] eqn:Hid; simpl; [|done].
  destruct (get (objects l) view) as [x|]; simpl; [|done].
  destruct (np_random_normal _ _ _ g) as [sample g'].
  by rewrite <- (setitem_features_of refs objects id l _ Hnd Hid).
Qed.

Lemma for_each_agrees {A : Type} refs
  (body : A -> feature_map scalar * rng
          -> result unit * (feature_map scalar * rng))
  (body' : A -> object_store scalar * rng
           -> result unit * (object_store scalar * rng))
  (xs : list A) :
  (forall x objects g,
     body x (features_of refs objects, g)
     = match body' x (objects, g) with
       | (outcome, (objects', g')) =>
           (outcome, (features_of refs objects', g'))
       end) ->
  forall objects g,
    for_each body xs (features_of refs objects, g)
    = match for_each body' xs (objects, g) with
      | (outcome, (objects', g')) =>
          (outcome, (features_of refs objects', g'))
      end.
Proof.
  intros Hbody. induction xs as [|x xs IH]; intros objects g; [done|].
  rewrite !for_each_cons, Hbody.
  destruct (body' x (objects, g)) as [[[]|e] [objects1 g1]]; [apply IH|done].
Qed.

(** When no two identifiers hold one and the same inner dictionary, the
    [gaussian] and [zeroing] branches on the mapping and the loops on the
    store leave the same mapping, the same generator and the same outcome:
    the mapping a reader sees does not tell the two apart. *)
Theorem unshared_branches_agree refs objects
  (views_to_randomize : str_or_list) (views : list string) g :
  NoDup (refs.*2) ->
  randomize_features_modes (features_of refs objects) views_to_randomize
    views "zeroing" g
  = match zeroing_in_place refs views (objects, g) with
    | (outcome, (objects', g')) => (outcome, (features_of refs objects', g'))
    end
  ∧ randomize_features_modes (features_of refs objects) views_to_randomize
      views "gaussian" g
    = match gaussian_in_place refs views (objects, g) with
      | (outcome, (objects', g')) =>
          (outcome, (features_of refs objects', g'))
      end.
Proof.
  intros Hnd. split.
  - change (randomize_features_modes (features_of refs objects)
              views_to_randomize views "zeroing" g)
      with (for_each (fun view s =>
                        for_each (zeroing_step view) (ids_of s.1) s)
              views (features_of refs objects, g)).
    unfold zeroing_in_place. apply for_each_agrees.
    intros view objects0 g0. cbv beta.
    change (ids_of (features_of refs objects0, g0).1)
      with (keys (features_of refs objects0)).
    unfold features_of at 1. rewrite keys_fmap_values.
    apply for_each_agrees. intros id objects1 g1.
    by apply zeroing_step_agrees.
  - change (randomize_features_modes (features_of refs objects)
              views_to_randomize views "gaussian" g)
      with (for_each (fun view s =>
                        for_each (gaussian_step view) (ids_of s.1) s)
              views (features_of refs objects, g)).
    unfold gaussian_in_place. apply for_each_agrees.
    intros view objects0 g0. cbv beta.
    change (ids_of (features_of refs objects0, g0).1)
      with (keys (features_of refs objects0)).
    unfold features_of at 1. rewrite keys_fmap_values.
    apply for_each_agrees. intros id objects1 g1.
    by apply gaussian_step_agrees.
Qed.

End InPlaceFacts.


Lemma gaussian_in_place_resamples_witness :
  NoDup (keys example_unshared_refs)
  ∧ NoDup (example_unshared_refs.*2)
  ∧ Forall (fun entity => is_Some (get (example_objects entity.2) "viewA"))
      example_unshared_refs
  ∧ exists objects' g',
      gaussian_in_place example_unshared_refs ["viewA"] (example_objects, 1)
      = (Ok tt, (objects', g'))
      ∧ (forall l, l ∉ example_unshared_refs.*2 ->
                   objects' l = example_objects l)
      ∧ Forall (fun entity =>
                  (forall view', view' ≠ "viewA" ->
                                 get (objects' entity.2) view'
                                 = get (example_objects entity.2) view')
                  ∧ exists (x : list Z) (g0 : nat),
                      get (example_objects entity.2) "viewA" = Some x
                      ∧ get (objects' entity.2) "viewA"
                        = Some (np_random_normal (np_mean x) (np_std x)
                                  (length x) g0).1)
          example_unshared_refs.
Proof.
  assert (Hkeys : NoDup (keys example_unshared_refs)).
  { apply (bool_decide_unpack _). by vm_compute. }
  assert (Hlocs : NoDup (example_unshared_refs.*2)).
  { apply (bool_decide_unpack _). by vm_compute. }
  assert (Hall : Forall (fun entity =>
                           is_Some (get (example_objects entity.2) "viewA"))
                   example_unshared_refs).
  { repeat constructor; by eexists. }
  split; [exact Hkeys|]. split; [exact Hlocs|]. split; [exact Hall|].
  exact (gaussian_in_place_resamples example_unshared_refs "viewA"
           example_objects 1 Hkeys Hlocs Hall).
Defined.

(** The hypothesis of X8 that no inner dictionary is shared is needed: on
    [example_refs], where [a] and [c] hold one dictionary, the draw made
    for [c] takes the mean of the sample just written for [a], and both
    identifiers end with that last draw. *)
Example gaussian_in_place_shared_example :
  let '(outcome, (objects', g')) :=
    gaussian_in_place example_refs ["viewA"] (example_objects, 1) in
  outcome = Ok tt
  ∧ g' = 4
  ∧ features_of example_refs objects'
    = [("a", [("viewA", [5; 5]%Z); ("viewB", [3; 4; 5]%Z)]);
       ("b", [("viewA", [8; 8]%Z)]);
       ("c", [("viewA", [5; 5]%Z); ("viewB", [3; 4; 5]%Z)])].
Proof. by vm_compute. Qed.

(** The same loop on a mapping whose three inner dictionaries are three
    objects with the contents above: the draw made for [c] takes the mean
    of its own old vector. *)
Example gaussian_loop_unshared_example :
  randomize_features_modes
    (features_of example_refs example_objects) (Str "viewA") ["viewA"]
    "gaussian" 1
  = (Ok tt,
     ([("a", [("viewA", [2; 2]%Z); ("viewB", [3; 4; 5]%Z)]);
       ("b", [("viewA", [8; 8]%Z)]);
       ("c", [("viewA", [4; 4]%Z); ("viewB", [3; 4; 5]%Z)])],
      4)).
Proof. by vm_compute. Qed.

(** ** [RandomForest] *)

Lemma length_zip_with_app {A : Type} (a b : list (list A)) :
  length a = length b -> length (zip_with app a b) = length a.
Proof. intros Hlen. rewrite length_zip_with. lia. Qed.

Lemma lookup_zip_with_app {A : Type} (a b : list (list A)) (i : nat)
  (x y : list A) :
  a !! i = Some x -> b !! i = Some y -> zip_with app a b !! i = Some (x ++ y).
Proof. intros Hx Hy. rewrite lookup_zip_with, Hx. simpl. by rewrite Hy. Qed.

Lemma Forall_zip_with_app {A : Type} (a b : list (list A)) (n m : nat) :
  Forall (fun row => length row = n) a ->
  Forall (fun row => length row = m) b ->
  Forall (fun row => length row = n + m) (zip_with app a b).
Proof.
  intros Ha. revert b. induction Ha as [|x a Hx _ IH]; intros b Hb; [done|].
  destruct Hb as [|y b Hy Hb]; simpl; [done|].
  constructor; [by rewrite length_app, Hx, Hy|by apply IH].
Qed.

Section RandomForestFacts.

Context {scalar estimator : Type} `{Sklearn scalar estimator}.

Implicit Types (hp : dict hpam_value) (model : estimator).
Implicit Types (ge fp : list (list scalar)).

(** X9: [build_model] reads seven keys in a fixed order.  With all of
    them present it stores the estimator made of their values, whatever else
    the dict holds; otherwise it raises the [KeyError] of the first of the
    seven that is missing.  Every dict of [get_hyperparameter_set] builds. *)
Theorem build_model_reads_seven_keys :
  (forall hp (a1 a2 a3 a4 a5 a6 a7 : hpam_value),
     get hp "n_estimators" = Some a1 -> get hp "criterion" = Some a2 ->
     get hp "max_depth" = Some a3 -> get hp "min_samples_split" = Some a4 ->
     get hp "min_samples_leaf" = Some a5 -> get hp "n_jobs" = Some a6 ->
     get hp "max_samples" = Some a7 ->
     RandomForest.build_model hp
     = Ok (RandomForestRegressor
             {| arg_n_estimators := a1;
                arg_criterion := a2;
                arg_max_depth := a3;
                arg_min_samples_split := a4;
                arg_min_samples_leaf := a5;
                arg_n_jobs := a6;
                arg_max_samples := a7 |}))
  ∧ (forall hp (found : list string) (missing : string)
       (later : list string),
       RandomForest.estimator_keys = found ++ missing :: later ->
       Forall (fun key => is_Some (get hp key)) found ->
       get hp missing = None ->
       RandomForest.build_model hp = Raise (KeyError missing))
  ∧ Forall (fun hp => exists model, RandomForest.build_model hp = Ok model
                                    ∧ get hp "feature_path"
                                      = Some (HStr "data/GDSC"))
      RandomForest.get_hyperparameter_set.
Proof.
  split_and!.
  - intros hp a1 a2 a3 a4 a5 a6 a7 H1 H2 H3 H4 H5 H6 H7.
    unfold RandomForest.build_model, getitem.
    by rewrite H1, H2, H3, H4, H5, H6, H7.
  - intros hp found missing later Hkeys Hfound Hmissing.
    unfold RandomForest.build_model, getitem.
    unfold RandomForest.estimator_keys in Hkeys.
    repeat (destruct found as [|? found];
            [injection Hkeys as <- <-; by rewrite Hmissing|];
            injection Hkeys as <- Hkeys;
            apply Forall_cons in Hfound as [[? ->] Hfound]; simpl).
    by destruct found.
  - repeat constructor; by eexists.
Qed.

(** X10: [train] and [predict] lay the design matrix out alike: for [n]
    rows of [g] gene-expression values and [n] rows of [f] fingerprint
    values, both hand the estimator the same [n] rows of [g + f] values, row
    [i] being gene-expression row [i] followed by fingerprint row [i], and
    [train] fits it against [output.response].  With unequal row counts both
    raise the [ValueError] of [np.concatenate] and the estimator is not
    called. *)
Theorem train_predict_design_matrix model
  (output : DrugResponseDataset scalar) ge fp :
  (forall n g f : nat,
     length ge = n -> length fp = n ->
     Forall (fun row => length row = g) ge ->
     Forall (fun row => length row = f) fp ->
     exists X : list (list scalar),
       RandomForest.train model output ge fp
       = sk_fit model X (response output)
       ∧ RandomForest.predict model ge fp = sk_predict model X
       ∧ length X = n
       ∧ Forall (fun row => length row = g + f) X
       ∧ forall (i : nat) (a b : list scalar),
           ge !! i = Some a -> fp !! i = Some b -> X !! i = Some (a ++ b))
  ∧ (length ge ≠ length fp ->
     exists msg : string,
       RandomForest.train model output ge fp = Raise (ValueError msg)
       ∧ RandomForest.predict model ge fp = Raise (ValueError msg)).
Proof.
  unfold RandomForest.train, RandomForest.predict, np_concatenate_axis1.
  split.
  - intros n g f Hge Hfp Hg Hf. exists (zip_with app ge fp).
    replace (length ge =? length fp) with true
      by (symmetry; apply Nat.eqb_eq; congruence).
    simpl. split_and!; [done..| | |].
    + rewrite length_zip_with_app; congruence.
    + by apply Forall_zip_with_app.
    + intros i a b. apply lookup_zip_with_app.
  - intros Hne. apply Nat.eqb_neq in Hne. rewrite Hne. by eexists.
Qed.

Lemma get_feature_matrix_rows (self : FeatureDataset scalar)
  (view : string) (ids : list string) (shape : nat) :
  ids ≠ [] -> Forall (has_view (features self) view shape) ids ->
  exists matrix,
    get_feature_matrix self view ids = Ok matrix
    ∧ length matrix = length ids
    ∧ Forall (fun row => length row = shape) matrix
    ∧ forall (i : nat) (id : string),
        ids !! i = Some id ->
        exists row, matrix !! i = Some row
                    ∧ feature_vector (features self) id view = Ok row.
Proof.
  intros Hne Hids.
  assert (Hrows : exists matrix,
    Forall2 (fun id row =>
               feature_vector (features self) id view = Ok row
               ∧ length row = shape) ids matrix).
  { clear Hne. induction Hids as [|id ids Hid _ [matrix IH]].
    - by exists [].
    - apply has_view_feature_vector in Hid as (row & Hrow & Hlen).
      exists (row :: matrix). by constructor. }
  destruct Hrows as [matrix Hrows]. exists matrix.
  assert (Hshape : Forall (fun row => length row = shape) matrix).
  { clear Hne Hids. induction Hrows as [|???? [_ ?]]; by constructor. }
  split_and!.
  - unfold get_feature_matrix.
    rewrite (comprehension_Forall2 _ ids matrix).
    + simpl. apply (np_stack_same_shape matrix shape); [|done].
      intros ->. apply Forall2_nil_inv_r in Hrows. done.
    + eapply Forall2_impl; [exact Hrows|]. by intros ?? [? _].
  - symmetry. by eapply Forall2_length.
  - done.
  - intros i id Hi.
    destruct (Forall2_lookup_l _ _ _ _ _ Hrows Hi) as (row & Hrow & Hvec & _).
    by exists row.
Qed.

(** X11: from the response records to the estimator: when every cell line
    of the dataset has a [gene_expression] vector of [g] values, every drug a
    [fingerprints] vector of [f] values, there is at least one record and the
    two identifier sequences are equally long, the two feature matrices
    exist and [train] fits the matrix whose row [i] is the cell-line vector
    of record [i] followed by the drug vector of record [i], against
    [output.response]. *)
Theorem train_on_feature_matrices (cells drugs : FeatureDataset scalar)
  model (output : DrugResponseDataset scalar) (g f : nat) :
  cell_line_ids output ≠ [] ->
  length (cell_line_ids output) = length (drug_ids output) ->
  Forall (has_view (features cells) "gene_expression" g)
    (cell_line_ids output) ->
  Forall (has_view (features drugs) "fingerprints" f) (drug_ids output) ->
  exists ge fp X,
    get_feature_matrix cells "gene_expression" (cell_line_ids output) = Ok ge
    ∧ get_feature_matrix drugs "fingerprints" (drug_ids output) = Ok fp
    ∧ RandomForest.train model output ge fp
      = sk_fit model X (response output)
    ∧ length X = length (cell_line_ids output)
    ∧ Forall (fun row => length row = g + f) X
    ∧ forall (i : nat) (cell drug : string),
        cell_line_ids output !! i = Some cell ->
        drug_ids output !! i = Some drug ->
        exists a b : list scalar,
          feature_vector (features cells) cell "gene_expression" = Ok a
          ∧ feature_vector (features drugs) drug "fingerprints" = Ok b
          ∧ X !! i = Some (a ++ b).
Proof.
  intros Hne Hlen Hcells Hdrugs.
  assert (Hne' : drug_ids output ≠ []).
  { intros Hnil. rewrite Hnil in Hlen. by destruct (cell_line_ids output). }
  destruct (get_feature_matrix_rows cells _ _ g Hne Hcells)
    as (ge & Hge & Hgelen & Hgeshape & Hgerow).
  destruct (get_feature_matrix_rows drugs _ _ f Hne' Hdrugs)
    as (fp & Hfp & Hfplen & Hfpshape & Hfprow).
  exists ge, fp, (zip_with app ge fp). split_and!; [done..| | | |].
  - unfold RandomForest.train, np_concatenate_axis1.
    replace (length ge =? length fp) with true
      by (symmetry; apply Nat.eqb_eq; congruence).
    done.
  - rewrite length_zip_with_app; congruence.
  - by apply Forall_zip_with_app.
  - intros i cell drug Hcell Hdrug.
    destruct (Hgerow i cell Hcell) as (a & Ha & Hva).
    destruct (Hfprow i drug Hdrug) as (b & Hb & Hvb).
    exists a, b. split_and!; [done..|]. by apply lookup_zip_with_app.
Qed.

End RandomForestFacts.

Lemma build_model_reads_seven_keys_witness :
  RandomForest.estimator_keys
  = ["n_estimators"] ++ "criterion"
    :: ["max_depth"; "min_samples_split"; "min_samples_leaf"; "n_jobs";
        "max_samples"]
  ∧ Forall (fun key => is_Some (get [("n_estimators", HInt 10)] key))
      ["n_estimators"]
  ∧ get [("n_estimators", HInt 10)] "criterion" = None
  ∧ RandomForest.build_model (estimator := recording_estimator)
      [("n_estimators", HInt 10)]
    = Raise (KeyError "criterion").
Proof.
  assert (Hfound : Forall (fun key =>
                             is_Some (get [("n_estimators", HInt 10)] key))
                     ["n_estimators"]).
  { repeat constructor. by eexists. }
  split; [reflexivity|]. split; [exact Hfound|]. split; [reflexivity|].
  exact (proj1 (proj2 (build_model_reads_seven_keys
                         (estimator := recording_estimator)))
           [("n_estimators", HInt 10)] ["n_estimators"] "criterion" _
           eq_refl Hfound eq_refl).
Defined.

Lemma train_predict_design_matrix_witness :
  length [[1; 2]; [3; 4]]%Z = 2
  ∧ length [[1; 0; 1]; [0; 1; 1]]%Z = 2
  ∧ Forall (fun row => length row = 2) [[1; 2]; [3; 4]]%Z
  ∧ Forall (fun row => length row = 3) [[1; 0; 1]; [0; 1; 1]]%Z
  ∧ exists X : list (list Z),
      RandomForest.train example_model example_pairs
        [[1; 2]; [3; 4]]%Z [[1; 0; 1]; [0; 1; 1]]%Z
      = sk_fit example_model X (response example_pairs)
      ∧ RandomForest.predict example_model
          [[1; 2]; [3; 4]]%Z [[1; 0; 1]; [0; 1; 1]]%Z
        = sk_predict example_model X
      ∧ length X = 2
      ∧ Forall (fun row => length row = 2 + 3) X
      ∧ forall (i : nat) (a b : list Z),
          [[1; 2]; [3; 4]]%Z !! i = Some a ->
          [[1; 0; 1]; [0; 1; 1]]%Z !! i = Some b ->
          X !! i = Some (a ++ b).
Proof.
  assert (Hg : Forall (fun row => length row = 2) [[1; 2]; [3; 4]]%Z)
    by (repeat constructor).
  assert (Hf : Forall (fun row => length row = 3) [[1; 0; 1]; [0; 1; 1]]%Z)
    by (repeat constructor).
  split; [reflexivity|]. split; [reflexivity|].
  split; [exact Hg|]. split; [exact Hf|].
  exact (proj1 (train_predict_design_matrix example_model example_pairs
                  [[1; 2]; [3; 4]]%Z [[1; 0; 1]; [0; 1; 1]]%Z)
           2 2 3 eq_refl eq_refl Hg Hf).
Defined.

Lemma train_on_feature_matrices_witness :
  cell_line_ids example_pairs ≠ []
  ∧ length (cell_line_ids example_pairs) = length (drug_ids example_pairs)
  ∧ Forall (has_view (features example_cell_lines) "gene_expression" 2)
      (cell_line_ids example_pairs)
  ∧ Forall (has_view (features example_drugs) "fingerprints" 3)
      (drug_ids example_pairs)
  ∧ exists ge fp X,
      get_feature_matrix example_cell_lines "gene_expression"
        (cell_line_ids example_pairs) = Ok ge
      ∧ get_feature_matrix example_drugs "fingerprints"
          (drug_ids example_pairs) = Ok fp
      ∧ RandomForest.train example_model example_pairs ge fp
        = sk_fit example_model X (response example_pairs)
      ∧ length X = length (cell_line_ids example_pairs)
      ∧ Forall (fun row => length row = 2 + 3) X
      ∧ forall (i : nat) (cell drug : string),
          cell_line_ids example_pairs !! i = Some cell ->
          drug_ids example_pairs !! i = Some drug ->
          exists a b : list Z,
            feature_vector (features example_cell_lines) cell
              "gene_expression" = Ok a
            ∧ feature_vector (features example_drugs) drug "fingerprints"
              = Ok b
            ∧ X !! i = Some (a ++ b).
Proof.
  assert (Hne : cell_line_ids example_pairs ≠ []) by done.
  assert (Hcells : Forall (has_view (features example_cell_lines)
                             "gene_expression" 2)
                     (cell_line_ids example_pairs)).
  { repeat constructor; by do 2 eexists. }
  assert (Hdrugs : Forall (has_view (features example_drugs)
                             "fingerprints" 3)
                     (drug_ids example_pairs)).
  { repeat constructor; by do 2 eexists. }
  split; [exact Hne|]. split; [reflexivity|].
  split; [exact Hcells|]. split; [exact Hdrugs|].
  exact (train_on_feature_matrices example_cell_lines example_drugs
           example_model example_pairs 2 3 Hne eq_refl Hcells Hdrugs).
Defined.

(** ** The comprehension of the [permutation] branch *)

Section ComprehensionFacts.

Context {A V : Type}.

Lemma setitem_fresh (d : dict V) (k : string) (v : V) :
  k ∉ keys d -> setitem d k v = d ++ [(k, v)].
Proof.
  induction d as [|[k' v'] d IH]; simpl; [done|].
  intros Hk. apply not_elem_of_cons in Hk as [Hne Hk].
  destruct (String.eqb_spec k' k) as [->|_]; [done|]. by rewrite IH.
Qed.

Lemma get_is_Some_keys (d : dict V) (k : string) :
  k ∈ keys d -> is_Some (get d k).
Proof.
  induction d as [|[k' v'] d IH]; simpl.
  - by intros ?%elem_of_nil.
  - intros Hk. destruct (String.eqb_spec k' k) as [->|Hne]; [by eexists|].
    apply elem_of_cons in Hk as [->|Hk]; [done|]. by apply IH.
Qed.

Lemma fst_zip_take (ks : list string) (xs : list A) :
  (zip ks xs).*1 = take (length xs) ks.
Proof.
  revert xs. induction ks as [|k ks IH]; intros [|x xs]; simpl; try done.
  by rewrite IH.
Qed.

Lemma get_zip_NoDup (ks : list string) (vs : list V) (j : nat) (k : string)
  (v : V) :
  NoDup ks -> ks !! j = Some k -> vs !! j = Some v ->
  get (zip ks vs) k = Some v.
Proof.
  intros Hnd. revert vs j.
  induction Hnd as [|k0 ks Hk0 _ IH]; intros [|v0 vs] [|j]; simpl; try done.
  - intros [= ->] [= ->]. by rewrite String.eqb_refl.
  - intros Hk Hv. destruct (String.eqb_spec k0 k) as [->|_].
    + by apply list_elem_of_lookup_2 in Hk.
    + by eapply IH.
Qed.

Lemma dict_comprehension_fresh (f : string -> A -> result V)
  (items : list (string * A)) (values : list V) (acc : dict V) :
  NoDup (keys acc ++ items.*1) ->
  Forall2 (fun item v => f item.1 item.2 = Ok v) items values ->
  dict_comprehension f items acc = Ok (acc ++ zip items.*1 values).
Proof.
  intros Hnd Hvals. revert acc Hnd.
  induction Hvals as [|[k x] v items values Hv _ IH]; intros acc Hnd; simpl.
  - by rewrite app_nil_r.
  - simpl in Hv. rewrite Hv. simpl.
    assert (Hk : k ∉ keys acc).
    { apply NoDup_app in Hnd as (_ & Hdisj & _).
      intros Hin. apply (Hdisj k Hin). apply list_elem_of_here. }
    rewrite (setitem_fresh acc k v Hk), IH.
    + by rewrite <- app_assoc.
    + rewrite keys_app. simpl. by rewrite <- app_assoc.
Qed.

End ComprehensionFacts.

Section PermutationFacts.

Context {scalar rng : Type} `{Numpy scalar rng}.

(** X12: lines 158-165, the new views of one entity in the
    [permutation] branch.  The entity's view names are zipped with the
    permutation of the identifiers drawn for this entity, so only its first
    [len(permutation)] views are kept; a kept view that is not targeted keeps
    the entity's own vector, and a targeted view in position [j] gets the
    vector that the [j]-th member of the permutation has for that view. *)
Theorem permuted_entity_views (features : feature_map scalar)
  (views_to_randomize : str_or_list) (identifiers : list string)
  (entity : string) (own : dict (list scalar)) (g : rng) :
  let permuted := (np_random_permutation identifiers g).1 in
  get features entity = Some own ->
  NoDup (keys own) ->
  (forall (j : nat) (view other : string),
     keys own !! j = Some view -> permuted !! j = Some other ->
     contains views_to_randomize view = true ->
     exists x, feature_vector features other view = Ok x) ->
  exists new : dict (list scalar),
    permuted_entity features views_to_randomize identifiers entity g
    = (Ok new, (np_random_permutation identifiers g).2)
    ∧ keys new = take (length permuted) (keys own)
    ∧ forall (j : nat) (view other : string),
        keys own !! j = Some view -> permuted !! j = Some other ->
        getitem new view
        = if contains views_to_randomize view
          then feature_vector features other view
          else getitem own view.
Proof.
  intros permuted Hown Hnd Htargeted. subst permuted.
  destruct (np_random_permutation identifiers g) as [permuted g'] eqn:Hdraw.
  simpl in Htargeted |- *.
  set (f := fun view other : string =>
              if negb (contains views_to_randomize view)
              then feature_vector features entity view
              else feature_vector features other view).
  assert (Hvalues : exists values,
    Forall2 (fun item v => f item.1 item.2 = Ok v)
      (zip (keys own) permuted) values).
  { assert (Hitems : forall j item,
      zip (keys own) permuted !! j = Some item ->
      exists v, f item.1 item.2 = Ok v).
    { intros j [view other] Hj.
      apply lookup_zip_with_Some in Hj as (? & ? & [= <- <-] & Hview & Hother).
      unfold f. simpl.
      destruct (contains views_to_randomize view) eqn:Hc; simpl.
      - by eapply Htargeted.
      - unfold feature_vector, getitem. rewrite Hown. simpl.
        destruct (get_is_Some_keys own view) as [x ->]; [|by eexists].
        by eapply list_elem_of_lookup_2. }
    induction (zip (keys own) permuted) as [|item items IH].
    - by exists [].
    - destruct (Hitems 0 item eq_refl) as [v Hv].
      destruct IH as [values IH].
      { intros j item' Hj. by apply (Hitems (S j)). }
      exists (v :: values). by constructor. }
  destruct Hvalues as [values Hvalues].
  assert (Hkept : (zip (keys own) permuted).*1
                  = take (length permuted) (keys own))
    by apply fst_zip_take.
  assert (Hndkept : NoDup (take (length permuted) (keys own))).
  { eapply sublist_NoDup; [exact Hnd|]. apply sublist_take. }
  exists (zip (take (length permuted) (keys own)) values). split_and!.
  - unfold permuted_entity, getitem. rewrite Hown, Hdraw. fold f.
    rewrite (dict_comprehension_fresh f _ values []).
    + by rewrite Hkept.
    + by rewrite Hkept.
    + done.
  - unfold keys. change (map fst ?l) with (l.*1).
    rewrite fst_zip_take, take_take.
    replace (length values) with (length (zip (keys own) permuted))
      by (by eapply Forall2_length).
    rewrite length_zip_with. change (map fst own) with (keys own).
    change (own.*1) with (keys own).
    destruct (decide (length permuted ≤ length (keys own))).
    + f_equal. lia.
    + by rewrite !take_ge by lia.
  - intros j view other Hview Hother.
    assert (Hitem : zip (keys own) permuted !! j = Some (view, other)).
    { rewrite lookup_zip_with, Hview. simpl. by rewrite Hother. }
    destruct (Forall2_lookup_l _ _ _ _ _ Hvalues Hitem) as (v & Hv & Hfv).
    simpl in Hfv. unfold getitem at 1.
    rewrite (get_zip_NoDup _ values j view v Hndkept); [| |done].
    + rewrite <- Hfv. unfold f.
      destruct (contains views_to_randomize view); simpl; [done|].
      unfold feature_vector, getitem. by rewrite Hown.
    + rewrite lookup_take_lt; [done|]. by eapply lookup_lt_Some.
Qed.

End PermutationFacts.

Lemma permuted_entity_views_witness :
  get example_feature_map "a"
  = Some [("viewA", [1; 2]%Z); ("viewB", [3; 4; 5]%Z)]
  ∧ NoDup (keys [("viewA", [1; 2]%Z); ("viewB", [3; 4; 5]%Z)])
  ∧ exists new : dict (list Z),
      permuted_entity example_feature_map (StrList ["viewA"])
        ["a"; "b"; "c"] "a" 0
      = (Ok new, (np_random_permutation ["a"; "b"; "c"] 0).2)
      ∧ keys new
        = take (length (np_random_permutation ["a"; "b"; "c"] 0).1)
            (keys [("viewA", [1; 2]%Z); ("viewB", [3; 4; 5]%Z)])
      ∧ forall (j : nat) (view other : string),
          keys [("viewA", [1; 2]%Z); ("viewB", [3; 4; 5]%Z)] !! j = Some view ->
          (np_random_permutation ["a"; "b"; "c"] 0).1 !! j = Some other ->
          getitem new view
          = if contains (StrList ["viewA"]) view
            then feature_vector example_feature_map other view
            else getitem [("viewA", [1; 2]%Z); ("viewB", [3; 4; 5]%Z)] view.
Proof.
  assert (Hnd : NoDup (keys [("viewA", [1; 2]%Z); ("viewB", [3; 4; 5]%Z)])).
  { apply (bool_decide_unpack _). by vm_compute. }
  split; [reflexivity|]. split; [exact Hnd|].
  apply (permuted_entity_views example_feature_map (StrList ["viewA"])
           ["a"; "b"; "c"] "a" _ 0 eq_refl Hnd).
  intros [|[|j]] view other; simpl; intros [= <-] [= <-]; try done.
  intros _. by eexists.
Defined.
